(** * digispark-ir-keyboard: the IR pulse decoder and the key dispatcher

    A shallow embedding of [digispark-ir-keyboard.ino] (ATtiny85 / Digispark,
    non-DEBUG build) and the properties of its falling-edge handler [readIR],
    of [reset], of [DEFAULT_handleReceivedData] and of [loop].

    The sketch keeps its whole state in five globals.  They are gathered in
    the record [Globals]; every function of the sketch becomes a function
    from [Globals] to the new [Globals] and the list of calls it made to the
    outside world (interrupt masking, the HID library), in program order.
    The two clocks, [micros()] and [millis()], are inputs: the value a call
    returned is an argument of the function that made the call. *)

From Stdlib Require Import ZArith List Bool Lia Sorting.Sorted.
Import ListNotations.
Open Scope Z_scope.

(** ** Machine integers

    [TS] is [unsigned long], 32 bits wide on the AVR; [uint8] and [uint16]
    are the fixed-width types of the sketch.  All are carried by [Z] with
    the wrap-around written out. *)

Definition TS_MODULUS : Z := 2 ^ 32.
Definition to_TS (x : Z) : Z := x mod TS_MODULUS.
Definition to_uint16 (x : Z) : Z := x mod 2 ^ 16.
Definition to_uint8 (x : Z) : Z := x mod 2 ^ 8.

(** ** Constants of the sketch *)

Definition SEC : Z := 1000000.
Definition MS : Z := 1000.
Definition US : Z := 1.
Definition TOLERANCE : Z := 20.
Definition PRESS_DELAY : Z := 200.

Definition VOL_UP : Z := 224.
Definition VOL_DOWN : Z := 208.
Definition MUTE : Z := 240.

Definition STATE_NEED_START : Z := 0.
Definition STATE_NEED_START2 : Z := 1.
Definition STATE_DATA : Z := 2.
Definition STATE_DATA_READY : Z := 3.

(** The multimedia keys of the HID library ([TrinketHidCombo.h], an external
    library): only their identity matters here. *)
Inductive MMKey : Type :=
| MMKEY_VOL_UP
| MMKEY_VOL_DOWN
| MMKEY_MUTE.

(** Calls that leave the sketch, in the order they are made. *)
Inductive Event : Type :=
| EvNoInterrupts
| EvInterrupts
| EvPressMultimediaKey (k : MMKey)
| EvPoll.

(** ** The globals *)

Record Globals : Type := mkGlobals {
  lastRead : Z;   (* volatile TS    *)
  pulseNum : Z;   (* volatile uint8 *)
  data : Z;       (* volatile uint8 *)
  state : Z;      (* volatile uint8 *)
  lastPress : Z   (* TS             *)
}.

Definition set_lastRead (v : Z) (s : Globals) : Globals :=
  mkGlobals v (pulseNum s) (data s) (state s) (lastPress s).
Definition set_pulseNum (v : Z) (s : Globals) : Globals :=
  mkGlobals (lastRead s) v (data s) (state s) (lastPress s).
Definition set_data (v : Z) (s : Globals) : Globals :=
  mkGlobals (lastRead s) (pulseNum s) v (state s) (lastPress s).
Definition set_state (v : Z) (s : Globals) : Globals :=
  mkGlobals (lastRead s) (pulseNum s) (data s) v (lastPress s).
Definition set_lastPress (v : Z) (s : Globals) : Globals :=
  mkGlobals (lastRead s) (pulseNum s) (data s) (state s) v.

(** The values the globals are initialised with. *)
Definition boot : Globals := mkGlobals 0 0 0 STATE_NEED_START 0.

(** ** [reset]

    [noInterrupts(); lastRead = 0; interrupts(); data = pulseNum = 0;
     state = STATE_NEED_START;] *)
Definition reset (s : Globals) : Globals * list Event :=
  let s1 := set_lastRead 0 s in
  let s2 := set_pulseNum 0 s1 in
  let s3 := set_data (pulseNum s2) s2 in
  (set_state STATE_NEED_START s3, [EvNoInterrupts; EvInterrupts]).

(** ** [readIR], the falling-edge handler *)

(** How a [case] of the [switch] is left: by [break], which goes on to the
    statement after the [switch], or by [return]. *)
Inductive flow : Type := Break | Return.

(** The two tests on [delta] in [case STATE_DATA]: the value of [dataBit],
    or [None] for the final [else] (irregular pulse).  The bit-1 test comes
    first, as in the source. *)
Definition classify (delta : Z) : option Z :=
  if (delta >? 1 * MS + 500 * US - TOLERANCE) && (delta <? 2 * MS + 500 * US + TOLERANCE)
  then Some 1
  else if (delta >? 1 * MS - TOLERANCE) && (delta <? 1 * MS + 500 * US + TOLERANCE)
  then Some 0
  else None.

(** The part of [case STATE_DATA] after [dataBit] is known. *)
Definition store_bit (dataBit : Z) (s : Globals) : Globals :=
  let s1 :=
    if (pulseNum s >=? 16) && (pulseNum s <? 24) then
      let s' := set_data (to_uint8 (Z.lor (data s) dataBit)) s in
      if pulseNum s' <? 23 then set_data (to_uint8 (Z.shiftl (data s') 1)) s' else s'
    else s in
  let s2 := set_pulseNum (to_uint8 (pulseNum s1 + 1)) s1 in
  if pulseNum s2 >=? 32 then set_state STATE_DATA_READY s2 else s2.

(** The [switch (state)] statement. *)
Definition readIR_switch (now delta : Z) (s : Globals) : Globals * list Event * flow :=
  if state s =? STATE_NEED_START then
    if lastRead s =? 0
    then (set_state STATE_NEED_START2 (set_lastRead now s), [], Return)
    else (s, [], Break)
  else if state s =? STATE_NEED_START2 then
    if (delta >? 7 * MS) && (delta <? 11 * MS)
    then (set_state STATE_DATA (set_pulseNum 0 s), [], Break)
    else let '(s', ev) := reset s in (s', ev, Return)
  else if state s =? STATE_DATA then
    match classify delta with
    | Some dataBit => (store_bit dataBit s, [], Break)
    | None => let '(s', ev) := reset s in (s', ev, Return)
    end
  else (s, [], Break).

(** [readIR], with [now] the value [micros()] returned.

    [delta] is a [uint16]: the 32-bit difference is cut to its low 16 bits.
    [40*MS] does not fit the 16-bit [int] of the AVR; the compiler folds it
    to [-25536], which the comparison with the unsigned [delta] converts
    back to 40000, so the test is [delta > 40000] on every target. *)
Definition readIR (now : Z) (s : Globals) : Globals * list Event :=
  if negb (lastRead s =? 0) && (lastRead s >? now) then reset s
  else
    let delta := to_uint16 (to_TS (now - lastRead s)) in
    let '(s1, ev1) :=
      if negb (lastRead s =? 0) && (delta >? 40 * MS) then reset s else (s, []) in
    let '(s2, ev2, fl) := readIR_switch now delta s1 in
    match fl with
    | Return => (s2, ev1 ++ ev2)
    | Break => (set_lastRead now s2, ev1 ++ ev2)
    end.

(** ** The dispatcher *)

(** [DEFAULT_handleReceivedData], with [now] the value [millis()] returned. *)
Definition handleReceivedData (now : Z) (s : Globals) : Globals * list Event :=
  if negb (lastPress s =? 0) && (lastPress s >? now) then (set_lastPress 0 s, [])
  else if negb (lastPress s =? 0) && (to_TS (now - lastPress s) <? PRESS_DELAY) then (s, [])
  else if data s =? VOL_UP then (set_lastPress now s, [EvPressMultimediaKey MMKEY_VOL_UP])
  else if data s =? VOL_DOWN then (set_lastPress now s, [EvPressMultimediaKey MMKEY_VOL_DOWN])
  else if data s =? MUTE then (set_lastPress now s, [EvPressMultimediaKey MMKEY_MUTE])
  else (s, []).

(** [DEFAULT_loopMisc]: [TrinketHidCombo.poll()]. *)
Definition loopMisc (s : Globals) : Globals * list Event := (s, [EvPoll]).

(** [loop]; the value of its own [micros()] call is never used.  [now_ms] is
    what [millis()] returns inside [handleReceivedData]. *)
Definition loop (now_ms : Z) (s : Globals) : Globals * list Event :=
  let '(s1, ev1) :=
    if state s =? STATE_DATA_READY then
      let '(sa, eva) := handleReceivedData now_ms s in
      let '(sb, evb) := reset sa in
      (sb, eva ++ evb)
    else (s, []) in
  let '(s2, ev2) := loopMisc s1 in
  (s2, ev1 ++ ev2).

(** ** Running the sketch

    The sketch reacts to two things: a falling edge, handled by [readIR], and
    an iteration of the main loop.  An edge carries the [micros()] reading of
    its handler.  A loop iteration carries the wall-clock time, in
    milliseconds since power-up, at which it runs; [millis()] shows that time
    cut to the width of [TS]. *)

Definition millis (wall_ms : Z) : Z := to_TS wall_ms.

(** [micros()] likewise shows the wall-clock time in microseconds cut to the
    width of [TS]: it starts again from 0 every 2^32 us. *)
Definition micros (wall_us : Z) : Z := to_TS wall_us.

Inductive Input : Type :=
| Edge (now_us : Z)
| Poll (wall_ms : Z).

Definition step (i : Input) (s : Globals) : Globals * list Event :=
  match i with
  | Edge now_us => readIR now_us s
  | Poll wall_ms => loop (millis wall_ms) s
  end.

Fixpoint run (s : Globals) (ins : list Input) : Globals * list Event :=
  match ins with
  | [] => (s, [])
  | i :: rest =>
      let '(s1, ev1) := step i s in
      let '(s2, ev2) := run s1 rest in
      (s2, ev1 ++ ev2)
  end.

(** The keys handed to the HID library among a list of calls. *)
Definition keys (ev : list Event) : list MMKey :=
  flat_map (fun e => match e with EvPressMultimediaKey k => [k] | _ => [] end) ev.

(** The wall-clock times of the loop iterations of [ins]. *)
Definition poll_times (ins : list Input) : list Z :=
  flat_map (fun i => match i with Poll t => [t] | Edge _ => [] end) ins.

(** The wall-clock times of the loop iterations that handed a key to the HID
    library, in order. *)
Fixpoint accepted_times (s : Globals) (ins : list Input) : list Z :=
  match ins with
  | [] => []
  | i :: rest =>
      let '(s1, ev1) := step i s in
      match i, keys ev1 with
      | Poll t, _ :: _ => t :: accepted_times s1 rest
      | _, _ => accepted_times s1 rest
      end
  end.

(** The handler run on a list of [micros()] readings, one per edge. *)
Definition run_edges (s : Globals) (ts : list Z) : Globals :=
  fold_left (fun s t => fst (readIR t s)) ts s.

(** The readings of the edges that follow an edge at [t], given the
    intervals between consecutive edges. *)
Fixpoint edge_times (t : Z) (ds : list Z) : list Z :=
  match ds with
  | [] => []
  | d :: rest => (t + d) :: edge_times (t + d) rest
  end.

Definition sumZ (l : list Z) : Z := fold_right Z.add 0 l.

(** The number whose binary digits are [bits], first digit most significant. *)
Definition msb_first (bits : list Z) : Z :=
  fold_left (fun acc b => 2 * acc + b) bits 0.

(** The data-phase bookkeeping of [readIR] applied to a list of bits, one
    [store_bit] per bit. *)
Definition feed (bits : list Z) (s : Globals) : Globals :=
  fold_left (fun s b => store_bit b s) bits s.

Definition is_bit (b : Z) : Prop := b = 0 \/ b = 1.

(** What holds of the globals whenever a handler or a loop iteration has
    run to its end, as long as no edge interrupts a loop iteration: a decoder
    waiting for a first edge has no edge recorded, and the code byte is empty
    until the data phase. *)
Definition idle_inv (s : Globals) : Prop :=
  (state s = STATE_NEED_START -> lastRead s = 0 /\ data s = 0) /\
  (state s = STATE_NEED_START2 -> data s = 0).

(** A wall-clock time at which [millis()] has not wrapped and does not read
    0, the value [lastPress] uses for "no key sent yet". *)
Definition in_range (t : Z) : Prop := 0 < t < TS_MODULUS.

(** [a] occurs somewhere before [b] in [l]. *)
Definition precedes {A : Type} (a b : A) (l : list A) : Prop :=
  exists l1 l2 l3, l = l1 ++ a :: l2 ++ b :: l3.

(** The 16-bit interval [readIR] computes, once the wrap-around test let the
    edge through. *)
Definition delta_of (now : Z) (s : Globals) : Z :=
  to_uint16 (to_TS (now - lastRead s)).

(** The state [reset] leaves: everything of the decoder cleared, the
    dispatcher's [lastPress] kept. *)
Definition cleared (s : Globals) : Globals :=
  mkGlobals 0 0 0 STATE_NEED_START (lastPress s).

(** ** Well-timed frames

    The edges of a frame as a remote sends it: an edge at [t0], the start
    marker 9 ms later, then one edge per bit, 2 ms after the previous edge
    for a 1 and 1.2 ms for a 0. *)

Definition interval_of_bit (b : Z) : Z := if b =? 1 then 2 * MS else 1200 * US.

Definition frame_intervals (bits : list Z) : list Z :=
  9 * MS :: map interval_of_bit bits.

Definition frame_edges (t0 : Z) (bits : list Z) : list Input :=
  map Edge (t0 :: edge_times t0 (frame_intervals bits)).

(** The 32 bits of a frame: 16 address bits (all 0 here), the code byte,
    most significant bit first, and the code byte inverted. *)
Definition frame_bits (code : list Z) : list Z :=
  repeat 0 16 ++ code ++ map (fun b => 1 - b) code.

(** The wrap-around guard of [readIR] lets the edge through. *)
Definition no_wrap (now : Z) (s : Globals) : Prop :=
  lastRead s = 0 \/ lastRead s <= now.

(** The timeout guard of [readIR] does not fire. *)
Definition no_timeout (now : Z) (s : Globals) : Prop :=
  lastRead s = 0 \/ delta_of now s <= 40 * MS.

(** ** The [switch] of [DEFAULT_handleReceivedData] on its own

    The key the [switch (data)] statement selects, [None] for its [default]
    case. *)
Definition key_of_code (code : Z) : option MMKey :=
  if code =? VOL_UP then Some MMKEY_VOL_UP
  else if code =? VOL_DOWN then Some MMKEY_VOL_DOWN
  else if code =? MUTE then Some MMKEY_MUTE
  else None.

Definition option_list {A : Type} (o : option A) : list A :=
  match o with Some a => [a] | None => [] end.

(** Every [noInterrupts()] is followed at once by [interrupts()], and
    [interrupts()] is called nowhere else. *)
Inductive masking_balanced : list Event -> Prop :=
| balanced_nil : masking_balanced []
| balanced_mask (rest : list Event) :
    masking_balanced rest -> masking_balanced (EvNoInterrupts :: EvInterrupts :: rest)
| balanced_key (k : MMKey) (rest : list Event) :
    masking_balanced rest -> masking_balanced (EvPressMultimediaKey k :: rest)
| balanced_poll (rest : list Event) :
    masking_balanced rest -> masking_balanced (EvPoll :: rest).

(** ** The main loop with interrupts

    [readIR] is an interrupt handler: it can run between any two statements
    of [loop], also inside [reset] once [interrupts()] has been called.  It
    cannot interrupt itself, a single byte is read and written atomically,
    and the only access of [loop] to the four-byte [lastRead] is made with
    interrupts masked.  So [loop] is a sequence of atomic statements, with
    [LoopPc] the statement about to run.

    [DEFAULT_handleReceivedData] reads one global the handler writes, [data],
    and reads it once; all else it touches is [lastPress], which [readIR]
    never accesses.  It is one statement here, run at the moment of that
    read. *)
Inductive LoopPc : Type :=
| AtCheck          (* if (state == STATE_DATA_READY)               *)
| AtHandle         (* handleReceivedData();                        *)
| AtResetLastRead  (* noInterrupts(); lastRead = 0; interrupts();  *)
| AtResetPulseNum  (* pulseNum = 0   (of data = pulseNum = 0)      *)
| AtResetData      (* data = 0       (the value just assigned)     *)
| AtResetState     (* state = STATE_NEED_START;                    *)
| AtLoopMisc.      (* loopMisc();                                  *)

(** One statement of [loop]; [now_ms] is what [millis()] returns if the
    statement is the call of [handleReceivedData]. *)
Definition loop_stmt (now_ms : Z) (pc : LoopPc) (s : Globals)
  : LoopPc * Globals * list Event :=
  match pc with
  | AtCheck =>
      if state s =? STATE_DATA_READY then (AtHandle, s, []) else (AtLoopMisc, s, [])
  | AtHandle =>
      let '(s1, ev) := handleReceivedData now_ms s in (AtResetLastRead, s1, ev)
  | AtResetLastRead => (AtResetPulseNum, set_lastRead 0 s, [EvNoInterrupts; EvInterrupts])
  | AtResetPulseNum => (AtResetData, set_pulseNum 0 s, [])
  | AtResetData => (AtResetState, set_data 0 s, [])
  | AtResetState => (AtLoopMisc, set_state STATE_NEED_START s, [])
  | AtLoopMisc => let '(s1, ev) := loopMisc s in (AtCheck, s1, ev)
  end.

(** What happens next: the interrupt fires and [readIR] runs to its end, or
    [loop] runs its next statement. *)
Inductive Preempt : Type :=
| Irq (now_us : Z)
| Stmt (now_ms : Z).

Definition preempt_step (i : Preempt) (c : LoopPc * Globals)
  : (LoopPc * Globals) * list Event :=
  let '(pc, s) := c in
  match i with
  | Irq now_us => let '(s1, ev) := readIR now_us s in ((pc, s1), ev)
  | Stmt now_ms => let '(pc1, s1, ev) := loop_stmt now_ms pc s in ((pc1, s1), ev)
  end.

Fixpoint preempt_run (c : LoopPc * Globals) (ins : list Preempt)
  : (LoopPc * Globals) * list Event :=
  match ins with
  | [] => (c, [])
  | i :: rest =>
      let '(c1, ev1) := preempt_step i c in
      let '(c2, ev2) := preempt_run c1 rest in
      (c2, ev1 ++ ev2)
  end.

(** What the decoder globals keep at every moment, interrupts inside [loop]
    included. *)
Definition counter_inv (s : Globals) : Prop :=
  0 <= data s < 256 /\
  0 <= pulseNum s <= 32 /\
  (state s = STATE_DATA -> pulseNum s < 32) /\
  (state s = STATE_NEED_START \/ state s = STATE_NEED_START2 \/
   state s = STATE_DATA \/ state s = STATE_DATA_READY).

(** * Properties *)

(** ** [reset] *)

Lemma reset_cleared (s : Globals) :
  reset s = (cleared s, [EvNoInterrupts; EvInterrupts]).
Proof. reflexivity. Qed.

Lemma reset_idempotent (s : Globals) :
  fst (reset (fst (reset s))) = fst (reset s).
Proof. reflexivity. Qed.

(** ** The 16-bit interval *)

(** An elapsed time below 65536 us is held by [delta] as it is. *)
Lemma delta_of_small (now : Z) (s : Globals) :
  0 <= now - lastRead s < 65536 -> delta_of now s = now - lastRead s.
Proof.
  intros H. unfold delta_of, to_uint16, to_TS, TS_MODULUS.
  change (2 ^ 32) with 4294967296. change (2 ^ 16) with 65536.
  rewrite (Z.mod_small (now - lastRead s) 4294967296) by lia.
  apply Z.mod_small. lia.
Qed.

Lemma delta_of_range (now : Z) (s : Globals) : 0 <= delta_of now s < 65536.
Proof.
  unfold delta_of, to_uint16. change (2 ^ 16) with 65536.
  apply Z.mod_pos_bound. lia.
Qed.

(** ** The two global guards of [readIR] *)

Section Guards.
Variables (now : Z) (s : Globals).

Lemma wrap_guard_false :
  no_wrap now s -> negb (lastRead s =? 0) && (lastRead s >? now) = false.
Proof.
  unfold no_wrap. intros [H | H].
  - rewrite H. reflexivity.
  - apply andb_false_iff. right. rewrite Z.gtb_ltb. apply Z.ltb_ge. exact H.
Qed.

Lemma wrap_guard_true :
  lastRead s <> 0 -> lastRead s > now ->
  negb (lastRead s =? 0) && (lastRead s >? now) = true.
Proof.
  intros H0 H. apply andb_true_iff. split.
  - apply negb_true_iff, Z.eqb_neq, H0.
  - rewrite Z.gtb_ltb. apply Z.ltb_lt. lia.
Qed.

Lemma timeout_guard_false :
  no_timeout now s ->
  negb (lastRead s =? 0) && (to_uint16 (to_TS (now - lastRead s)) >? 40 * MS) = false.
Proof.
  unfold no_timeout, delta_of. intros [H | H].
  - rewrite H. reflexivity.
  - apply andb_false_iff. right.
    rewrite Z.gtb_ltb. apply Z.ltb_ge. exact H.
Qed.

Lemma timeout_guard_true :
  lastRead s <> 0 -> 40 * MS < delta_of now s ->
  negb (lastRead s =? 0) && (to_uint16 (to_TS (now - lastRead s)) >? 40 * MS) = true.
Proof.
  unfold delta_of. intros H0 H.
  apply andb_true_iff. split.
  - apply negb_true_iff, Z.eqb_neq, H0.
  - rewrite Z.gtb_ltb. apply Z.ltb_lt. exact H.
Qed.

(** With both guards passed, [readIR] is its [switch] on the unchanged
    globals. *)
Lemma readIR_guards_passed :
  no_wrap now s -> no_timeout now s ->
  readIR now s =
    let '(s2, ev2, fl) := readIR_switch now (delta_of now s) s in
    match fl with
    | Return => (s2, ev2)
    | Break => (set_lastRead now s2, ev2)
    end.
Proof.
  intros Hw Ht. unfold readIR.
  rewrite (wrap_guard_false Hw), (timeout_guard_false Ht).
  reflexivity.
Qed.

(** When the timeout guard fires, the edge becomes the first edge of a new
    attempt, whatever the state was. *)
Lemma readIR_timeout :
  no_wrap now s -> lastRead s <> 0 -> 40 * MS < delta_of now s ->
  readIR now s =
    (mkGlobals now 0 0 STATE_NEED_START2 (lastPress s), [EvNoInterrupts; EvInterrupts]).
Proof.
  intros Hw H0 Ht. unfold readIR.
  rewrite (wrap_guard_false Hw), (timeout_guard_true H0 Ht).
  reflexivity.
Qed.
End Guards.

Arguments wrap_guard_false {now s}.
Arguments wrap_guard_true {now s}.
Arguments timeout_guard_false {now s}.
Arguments timeout_guard_true {now s}.
Arguments readIR_guards_passed {now s}.
Arguments readIR_timeout {now s}.

(** An edge that comes after the recorded one, less than 65536 us later,
    passes the wrap-around test, and at most 40 ms later the timeout test
    too; [delta] is then the elapsed time. *)
Lemma elapsed_no_wrap (now : Z) (s : Globals) :
  0 <= now - lastRead s -> no_wrap now s.
Proof. intros H. right. lia. Qed.

Lemma elapsed_no_timeout (now : Z) (s : Globals) :
  0 <= now - lastRead s <= 40 * MS -> no_timeout now s.
Proof.
  intros H. right. unfold MS in *. rewrite delta_of_small; lia.
Qed.

(** ** The wrap-around guard *)

(** C8: when the recorded last edge is not the empty sentinel and is
    numerically greater than the current [micros()] reading, [readIR] does
    exactly what [reset] does, in every state: the decoder is cleared and no
    interval is classified. *)
Theorem C8_wraparound_is_full_reset (now : Z) (s : Globals) :
  lastRead s <> 0 -> lastRead s > now ->
  readIR now s = reset s /\
  fst (readIR now s) = mkGlobals 0 0 0 STATE_NEED_START (lastPress s).
Proof.
  intros H0 H. unfold readIR.
  rewrite (wrap_guard_true H0 H). split; reflexivity.
Qed.

(** In the data phase with the last edge at 4294960000 us, an edge read at
    1500 us (the clock has wrapped) clears the decoder. *)
Lemma C8_wraparound_witness :
  let s := mkGlobals 4294960000 20 96 STATE_DATA 0 in
  readIR 1500 s = reset s /\
  fst (readIR 1500 s) = mkGlobals 0 0 0 STATE_NEED_START (lastPress s).
Proof.
  intro s. apply (C8_wraparound_is_full_reset 1500 s); unfold s; simpl; lia.
Defined.

(** ** The timeout guard *)

(** C2 (the code at the failing input): the previous edge was recorded at
    1000 us and the next one arrives 74536 us later, well beyond 40 ms.  The
    16-bit [delta] holds 74536 - 65536 = 9000, the timeout test does not
    fire, no reset takes place, and the edge is accepted as the start marker
    of the stale attempt. *)
Theorem C2_stale_edge_taken_as_start_marker :
  let s := mkGlobals 1000 0 0 STATE_NEED_START2 0 in
  let now := 75536 in
  40 * MS < now - lastRead s /\
  delta_of now s = 9000 /\
  readIR now s = (mkGlobals now 0 0 STATE_DATA 0, []).
Proof. vm_compute. repeat split; reflexivity. Qed.

(** Below 65536 us the 16-bit [delta] is the elapsed time, and the timeout
    does what its comment says. *)
Lemma readIR_timeout_below_16_bits (now : Z) (s : Globals) :
  0 < lastRead s -> 40 * MS < now - lastRead s < 2 ^ 16 -> now < TS_MODULUS ->
  readIR now s =
    (mkGlobals now 0 0 STATE_NEED_START2 (lastPress s), [EvNoInterrupts; EvInterrupts]).
Proof.
  intros Hl Hd Hn.
  assert (Hdelta : delta_of now s = now - lastRead s)
    by (apply delta_of_small; unfold MS in Hd; change (2 ^ 16) with 65536 in Hd; lia).
  apply readIR_timeout.
  - right. unfold MS in Hd. lia.
  - lia.
  - rewrite Hdelta. lia.
Qed.

(** ** [STATE_NEED_START2] *)

Lemma start_window_true (d : Z) :
  7 * MS < d < 11 * MS -> (d >? 7 * MS) && (d <? 11 * MS) = true.
Proof.
  intros [H1 H2]. apply andb_true_iff. split.
  - rewrite Z.gtb_ltb. apply Z.ltb_lt, H1.
  - apply Z.ltb_lt, H2.
Qed.

Lemma start_window_false (d : Z) :
  ~ (7 * MS < d < 11 * MS) -> (d >? 7 * MS) && (d <? 11 * MS) = false.
Proof.
  intros H. apply andb_false_iff.
  destruct (Z.lt_ge_cases (7 * MS) d) as [H1 | H1].
  - right. apply Z.ltb_ge. lia.
  - left. rewrite Z.gtb_ltb. apply Z.ltb_ge, H1.
Qed.

Arguments start_window_true {d}.
Arguments start_window_false {d}.

(** The first edge: from [STATE_NEED_START] with no edge recorded, the edge
    is recorded and the decoder waits for the start marker. *)
Lemma readIR_first_edge (now : Z) (s : Globals) :
  state s = STATE_NEED_START -> lastRead s = 0 ->
  readIR now s = (set_state STATE_NEED_START2 (set_lastRead now s), []).
Proof.
  intros Hst Hl.
  rewrite readIR_guards_passed by (left; exact Hl).
  unfold readIR_switch. rewrite Hst, Hl. reflexivity.
Qed.

(** The start marker: an interval inside the start window opens the data
    phase. *)
Lemma readIR_start_marker (now : Z) (s : Globals) :
  state s = STATE_NEED_START2 -> no_wrap now s ->
  7 * MS < delta_of now s < 11 * MS ->
  readIR now s = (mkGlobals now 0 (data s) STATE_DATA (lastPress s), []).
Proof.
  intros Hst Hw Hwin.
  assert (Ht : no_timeout now s) by (right; unfold MS in *; lia).
  rewrite (readIR_guards_passed Hw Ht). unfold readIR_switch.
  rewrite Hst, (start_window_true Hwin). reflexivity.
Qed.

(** C4 (counterexample): in [STATE_NEED_START2], with the previous edge at
    1000 us and the new one at 51000 us, [delta] is 50000, outside the start
    window, yet the handler ends in [STATE_NEED_START2], not in
    [STATE_NEED_START]: the timeout guard reset the decoder and the edge was
    then recorded as a first edge. *)
Lemma C4_counterexample :
  let s := mkGlobals 1000 0 0 STATE_NEED_START2 0 in
  let now := 51000 in
  state s = STATE_NEED_START2 /\
  ~ (7 * MS < delta_of now s < 11 * MS) /\
  state (fst (readIR now s)) <> STATE_NEED_START.
Proof.
  vm_compute. split; [reflexivity | split]; [intros [_ H] | intro H]; discriminate H.
Qed.

(** C4 (amended): in [STATE_NEED_START2], for an edge that comes after the
    recorded one and less than 65536 us after it (so that the 16-bit [delta]
    is the elapsed time): an elapsed time strictly between 7 ms and 11 ms
    sets [pulseNum] to 0 and moves to [STATE_DATA]; an elapsed time outside
    that window and of at most 40 ms is a full reset, ending in
    [STATE_NEED_START] with [pulseNum] 0; an elapsed time above 40 ms, with an
    edge recorded, resets the decoder and records the edge as a first edge,
    ending in [STATE_NEED_START2] with [pulseNum] 0. *)
Theorem C4_start_confirm (now : Z) (s : Globals) :
  state s = STATE_NEED_START2 ->
  0 <= now - lastRead s < 2 ^ 16 ->
  (7 * MS < now - lastRead s < 11 * MS ->
     readIR now s = (mkGlobals now 0 (data s) STATE_DATA (lastPress s), [])) /\
  (~ (7 * MS < now - lastRead s < 11 * MS) -> now - lastRead s <= 40 * MS ->
     readIR now s = reset s /\
     fst (readIR now s) = mkGlobals 0 0 0 STATE_NEED_START (lastPress s)) /\
  (lastRead s <> 0 -> 40 * MS < now - lastRead s ->
     fst (readIR now s) = mkGlobals now 0 0 STATE_NEED_START2 (lastPress s)).
Proof.
  intros Hst He. change (2 ^ 16) with 65536 in He.
  assert (Hw : no_wrap now s) by (apply elapsed_no_wrap; lia).
  assert (Hdelta : delta_of now s = now - lastRead s) by (apply delta_of_small; exact He).
  split; [| split].
  - intros Hwin. apply readIR_start_marker; [exact Hst | exact Hw |].
    rewrite Hdelta. exact Hwin.
  - intros Hout Hle.
    assert (Ht : no_timeout now s) by (apply elapsed_no_timeout; lia).
    rewrite (readIR_guards_passed Hw Ht). unfold readIR_switch.
    rewrite <- Hdelta in Hout.
    rewrite Hst, (start_window_false Hout). split; reflexivity.
  - intros H0 Ht. rewrite <- Hdelta in Ht.
    rewrite (readIR_timeout Hw H0 Ht). reflexivity.
Qed.

(** An edge 9 ms after the first one opens the data phase. *)
Lemma C4_start_confirm_witness :
  let s := mkGlobals 1000 7 0 STATE_NEED_START2 0 in
  (state s = STATE_NEED_START2 /\ 0 <= 10000 - lastRead s < 2 ^ 16 /\
   7 * MS < 10000 - lastRead s < 11 * MS) /\
  readIR 10000 s = (mkGlobals 10000 0 0 STATE_DATA 0, []).
Proof.
  intro s.
  assert (Hst : state s = STATE_NEED_START2) by reflexivity.
  assert (He : 0 <= 10000 - lastRead s < 2 ^ 16) by (vm_compute; split; discriminate || reflexivity).
  assert (Hd : 7 * MS < 10000 - lastRead s < 11 * MS) by (vm_compute; split; reflexivity).
  split; [repeat split; try assumption; apply He || apply Hd |].
  exact (proj1 (C4_start_confirm 10000 s Hst He) Hd).
Defined.

(** ** [STATE_DATA]: classification of an interval *)

Lemma classify_bit (d b : Z) : classify d = Some b -> b = 0 \/ b = 1.
Proof.
  unfold classify. intros H.
  destruct ((d >? 1 * MS + 500 * US - TOLERANCE) && (d <? 2 * MS + 500 * US + TOLERANCE)).
  - right. congruence.
  - destruct ((d >? 1 * MS - TOLERANCE) && (d <? 1 * MS + 500 * US + TOLERANCE)).
    + left. congruence.
    + discriminate.
Qed.

Lemma classify_range (d b : Z) : classify d = Some b -> 980 < d < 2520.
Proof.
  unfold classify. intros H.
  destruct ((d >? 1 * MS + 500 * US - TOLERANCE) && (d <? 2 * MS + 500 * US + TOLERANCE)) eqn:E1.
  - apply andb_true_iff in E1. destruct E1 as [E1 E2].
    rewrite Z.gtb_ltb in E1. apply Z.ltb_lt in E1. apply Z.ltb_lt in E2.
    unfold MS, US, TOLERANCE in *. lia.
  - destruct ((d >? 1 * MS - TOLERANCE) && (d <? 1 * MS + 500 * US + TOLERANCE)) eqn:E2.
    + apply andb_true_iff in E2. destruct E2 as [E2 E3].
      rewrite Z.gtb_ltb in E2. apply Z.ltb_lt in E2. apply Z.ltb_lt in E3.
      unfold MS, US, TOLERANCE in *. lia.
    + discriminate.
Qed.

(** An interval is irregular exactly when it lies in neither window. *)
Lemma classify_none (d : Z) :
  classify d = None <->
  ~ (1500 * US - TOLERANCE < d < 2500 * US + TOLERANCE) /\
  ~ (1000 * US - TOLERANCE < d < 1500 * US + TOLERANCE).
Proof.
  unfold classify, MS, US, TOLERANCE.
  destruct ((d >? 1 * 1000 + 500 * 1 - 20) && (d <? 2 * 1000 + 500 * 1 + 20)) eqn:E1;
  [| destruct ((d >? 1 * 1000 - 20) && (d <? 1 * 1000 + 500 * 1 + 20)) eqn:E2 ].
  - apply andb_true_iff in E1. destruct E1 as [E1 E1'].
    rewrite Z.gtb_ltb in E1. apply Z.ltb_lt in E1. apply Z.ltb_lt in E1'.
    split; [discriminate | intros [H _]; exfalso; apply H; lia].
  - apply andb_true_iff in E2. destruct E2 as [E2 E2'].
    rewrite Z.gtb_ltb in E2. apply Z.ltb_lt in E2. apply Z.ltb_lt in E2'.
    split; [discriminate | intros [_ H]; exfalso; apply H; lia].
  - apply andb_false_iff in E1. apply andb_false_iff in E2.
    rewrite !Z.gtb_ltb in *. rewrite !Z.ltb_ge in *.
    split; [intros _ | reflexivity]. split; lia.
Qed.

(** With both guards passed, an edge in [STATE_DATA] whose interval is
    regular stores its bit and becomes the last edge. *)
Lemma readIR_data_bit (now : Z) (s : Globals) (b : Z) :
  state s = STATE_DATA -> no_wrap now s -> no_timeout now s ->
  classify (delta_of now s) = Some b ->
  readIR now s = (set_lastRead now (store_bit b s), []).
Proof.
  intros Hst Hw Ht Hc.
  rewrite (readIR_guards_passed Hw Ht). unfold readIR_switch.
  rewrite Hst, Hc. reflexivity.
Qed.

(** C10: in [STATE_DATA], an interval strictly between 1480 us and 1520 us
    lies in both classification windows, and the handler takes it as bit 1:
    the bit-1 test is the first of the two.  The edge stores the bit 1 and
    becomes the last edge. *)
Theorem C10_overlap_is_bit_one (now : Z) (s : Globals) :
  state s = STATE_DATA -> no_wrap now s ->
  1480 * US < delta_of now s < 1520 * US ->
  (1500 * US - TOLERANCE < delta_of now s < 2500 * US + TOLERANCE) /\
  (1000 * US - TOLERANCE < delta_of now s < 1500 * US + TOLERANCE) /\
  classify (delta_of now s) = Some 1 /\
  readIR now s = (set_lastRead now (store_bit 1 s), []).
Proof.
  intros Hst Hw Hd.
  assert (Hc : classify (delta_of now s) = Some 1).
  { unfold classify.
    replace ((delta_of now s >? 1 * MS + 500 * US - TOLERANCE) &&
             (delta_of now s <? 2 * MS + 500 * US + TOLERANCE)) with true; [reflexivity |].
    symmetry. apply andb_true_iff. unfold MS, US, TOLERANCE in *. split.
    - rewrite Z.gtb_ltb. apply Z.ltb_lt. lia.
    - apply Z.ltb_lt. lia. }
  unfold US, TOLERANCE in *.
  repeat split; try lia; try exact Hc.
  apply readIR_data_bit; try assumption.
  right. unfold MS. lia.
Qed.

(** An interval of 1500 us at pulse 16 is stored as a 1. *)
Lemma C10_overlap_witness :
  let s := mkGlobals 20000 16 0 STATE_DATA 0 in
  (state s = STATE_DATA /\ no_wrap 21500 s /\ 1480 * US < delta_of 21500 s < 1520 * US) /\
  classify (delta_of 21500 s) = Some 1 /\
  readIR 21500 s = (mkGlobals 21500 17 2 STATE_DATA 0, []).
Proof.
  intro s.
  assert (Hst : state s = STATE_DATA) by reflexivity.
  assert (Hw : no_wrap 21500 s) by (right; unfold s; simpl; lia).
  assert (Hd : 1480 * US < delta_of 21500 s < 1520 * US) by (vm_compute; split; reflexivity).
  split; [repeat split; assumption |].
  destruct (C10_overlap_is_bit_one 21500 s Hst Hw Hd) as (_ & _ & Hc & Hr).
  split; [exact Hc | exact Hr].
Defined.

(** C6 (counterexample): in [STATE_DATA], with the previous edge at 1000 us,
    an edge at 51000 us has an interval of 50000 us, outside both windows.
    The edge after it, 9000 us later, is not taken as a first edge: it is
    taken as the start marker and moves the decoder to [STATE_DATA], because
    the timeout guard had already made the irregular edge itself the first
    edge of the new attempt. *)
Lemma C6_counterexample :
  let s := mkGlobals 1000 5 0 STATE_DATA 0 in
  state s = STATE_DATA /\
  classify (delta_of 51000 s) = None /\
  state (fst (readIR 60000 (fst (readIR 51000 s)))) <> STATE_NEED_START2.
Proof.
  vm_compute. split; [reflexivity | split; [reflexivity | discriminate]].
Qed.

(** C6 (amended): in [STATE_DATA], an edge that comes after the recorded
    one and at most 40 ms after it (neither guard fires, and the 16-bit
    [delta] is the elapsed time) and whose elapsed time lies outside both bit
    windows does exactly what [reset] does: the decoder is cleared, and the
    only calls made are the interrupt masking of [reset], nothing is
    reported.  From the cleared state every edge is taken as a first edge: it
    is recorded and the decoder moves to [STATE_NEED_START2]. *)
Theorem C6_irregular_pulse_resets (now : Z) (s : Globals) :
  state s = STATE_DATA ->
  0 <= now - lastRead s <= 40 * MS ->
  ~ (1500 * US - TOLERANCE < now - lastRead s < 2500 * US + TOLERANCE) ->
  ~ (1000 * US - TOLERANCE < now - lastRead s < 1500 * US + TOLERANCE) ->
  readIR now s = (mkGlobals 0 0 0 STATE_NEED_START (lastPress s),
                  [EvNoInterrupts; EvInterrupts]) /\
  forall next : Z,
    readIR next (fst (readIR now s)) =
      (mkGlobals next 0 0 STATE_NEED_START2 (lastPress s), []).
Proof.
  intros Hst He H1 H0.
  assert (Hw : no_wrap now s) by (apply elapsed_no_wrap; lia).
  assert (Ht : no_timeout now s) by (apply elapsed_no_timeout; exact He).
  assert (Hdelta : delta_of now s = now - lastRead s)
    by (apply delta_of_small; unfold MS in He; lia).
  assert (Hc : classify (delta_of now s) = None).
  { rewrite Hdelta. apply classify_none. split; assumption. }
  assert (Hr : readIR now s = (mkGlobals 0 0 0 STATE_NEED_START (lastPress s),
                               [EvNoInterrupts; EvInterrupts])).
  { rewrite (readIR_guards_passed Hw Ht). unfold readIR_switch.
    rewrite Hst, Hc. reflexivity. }
  split; [exact Hr |].
  intros next. rewrite Hr. reflexivity.
Qed.

(** An interval of 3 ms in the data phase clears the decoder; the edge after
    it is recorded as a first edge. *)
Lemma C6_irregular_pulse_witness :
  let s := mkGlobals 20000 18 6 STATE_DATA 0 in
  (state s = STATE_DATA /\ 0 <= 23000 - lastRead s <= 40 * MS) /\
  readIR 23000 s = (mkGlobals 0 0 0 STATE_NEED_START 0, [EvNoInterrupts; EvInterrupts]) /\
  readIR 90000 (fst (readIR 23000 s)) = (mkGlobals 90000 0 0 STATE_NEED_START2 0, []).
Proof.
  intro s.
  assert (Hst : state s = STATE_DATA) by reflexivity.
  assert (He : 0 <= 23000 - lastRead s <= 40 * MS) by (vm_compute; split; discriminate).
  split; [split; assumption |].
  assert (H : readIR 23000 s = (mkGlobals 0 0 0 STATE_NEED_START (lastPress s),
                                [EvNoInterrupts; EvInterrupts]) /\
              forall next : Z,
                readIR next (fst (readIR 23000 s)) =
                  (mkGlobals next 0 0 STATE_NEED_START2 (lastPress s), [])).
  { apply (C6_irregular_pulse_resets 23000 s Hst He).
    - vm_compute. intros [_ H]. discriminate H.
    - vm_compute. intros [_ H]. discriminate H. }
  destruct H as [H1 H2]. split; [exact H1 | exact (H2 90000)].
Defined.

(** ** [STATE_DATA_READY] *)

(** C7 (the code at the failing input): a complete frame with code 224 waits
    in [STATE_DATA_READY], its last edge recorded at 1000 us.  An edge at
    51000 us, before the main loop ran, fires the timeout test ahead of the
    [switch]: [reset] runs, the code byte and the pulse count are lost, and
    the edge is recorded as the first edge of a new attempt.  The [default]
    case, whose comment says the edge is to be ignored until [loop] has
    handled the data, is never reached. *)
Theorem C7_late_edge_wipes_ready_frame :
  let s := mkGlobals 1000 32 224 STATE_DATA_READY 0 in
  state s = STATE_DATA_READY /\
  40 * MS < 51000 - lastRead s < 2 ^ 16 /\
  readIR 51000 s =
    (mkGlobals 51000 0 0 STATE_NEED_START2 0, [EvNoInterrupts; EvInterrupts]) /\
  ~ (data (fst (readIR 51000 s)) = data s /\
     pulseNum (fst (readIR 51000 s)) = pulseNum s /\
     state (fst (readIR 51000 s)) = state s).
Proof.
  vm_compute. repeat split; try reflexivity. intros [H _]. discriminate H.
Qed.

(** At most 40 ms after the recorded edge, an edge in [STATE_DATA_READY] is
    ignored: only [lastRead] takes the time of the edge. *)
Lemma readIR_ready_within_timeout (now : Z) (s : Globals) :
  state s = STATE_DATA_READY -> 0 <= now - lastRead s <= 40 * MS ->
  readIR now s = (set_lastRead now s, []).
Proof.
  intros Hst He.
  assert (Hw : no_wrap now s) by (apply elapsed_no_wrap; lia).
  assert (Ht : no_timeout now s) by (apply elapsed_no_timeout; exact He).
  rewrite (readIR_guards_passed Hw Ht). unfold readIR_switch.
  rewrite Hst. reflexivity.
Qed.

(** ** The dispatcher: one iteration of [loop] *)

Lemma loop_not_ready (now : Z) (s : Globals) :
  state s <> STATE_DATA_READY -> loop now s = (s, [EvPoll]).
Proof.
  intros H. unfold loop. apply Z.eqb_neq in H. rewrite H. reflexivity.
Qed.

Lemma loop_ready (now : Z) (s : Globals) :
  state s = STATE_DATA_READY ->
  loop now s =
    (cleared (fst (handleReceivedData now s)),
     snd (handleReceivedData now s) ++ [EvNoInterrupts; EvInterrupts; EvPoll]).
Proof.
  intros H. unfold loop. rewrite H. simpl.
  destruct (handleReceivedData now s) as [sa eva]. simpl.
  rewrite <- app_assoc. reflexivity.
Qed.

(** [handleReceivedData] touches nothing of the decoder. *)
Lemma handleReceivedData_decoder (now : Z) (s : Globals) :
  let sa := fst (handleReceivedData now s) in
  lastRead sa = lastRead s /\ pulseNum sa = pulseNum s /\
  data sa = data s /\ state sa = state s.
Proof.
  unfold handleReceivedData.
  destruct (negb (lastPress s =? 0) && (lastPress s >? now)); [simpl; auto |].
  destruct (negb (lastPress s =? 0) && (to_TS (now - lastPress s) <? PRESS_DELAY));
    [simpl; auto |].
  destruct (data s =? VOL_UP); [simpl; auto |].
  destruct (data s =? VOL_DOWN); [simpl; auto |].
  destruct (data s =? MUTE); simpl; auto.
Qed.

(** [handleReceivedData] makes no call but key presses, and at most one. *)
Lemma handleReceivedData_events (now : Z) (s : Globals) :
  snd (handleReceivedData now s) = [] \/
  exists k, snd (handleReceivedData now s) = [EvPressMultimediaKey k].
Proof.
  unfold handleReceivedData.
  destruct (negb (lastPress s =? 0) && (lastPress s >? now)); [left; reflexivity |].
  destruct (negb (lastPress s =? 0) && (to_TS (now - lastPress s) <? PRESS_DELAY));
    [left; reflexivity |].
  destruct (data s =? VOL_UP); [right; eexists; reflexivity |].
  destruct (data s =? VOL_DOWN); [right; eexists; reflexivity |].
  destruct (data s =? MUTE); [right; eexists; reflexivity | left; reflexivity].
Qed.

(** C3 (counterexample): a frame with code 224 is ready and no key was sent
    before.  In the calls of the loop iteration the key press comes first and
    the interrupt masking of [reset] after it: [reset] does not precede the
    forwarding of the command. *)
Lemma C3_counterexample :
  let s := mkGlobals 70000 32 224 STATE_DATA_READY 0 in
  state s = STATE_DATA_READY /\
  snd (loop 5000 s) =
    [EvPressMultimediaKey MMKEY_VOL_UP; EvNoInterrupts; EvInterrupts; EvPoll] /\
  ~ precedes EvNoInterrupts (EvPressMultimediaKey MMKEY_VOL_UP) (snd (loop 5000 s)).
Proof.
  cbv zeta. split; [reflexivity | split; [reflexivity |]].
  change (snd (loop 5000 (mkGlobals 70000 32 224 STATE_DATA_READY 0)))
    with [EvPressMultimediaKey MMKEY_VOL_UP; EvNoInterrupts; EvInterrupts; EvPoll].
  intros (l1 & l2 & l3 & H).
  destruct l1 as [| e1 l1]; [discriminate H |].
  simpl in H. inversion H as [[He1 H1]]. clear H.
  assert (Hin : In (EvPressMultimediaKey MMKEY_VOL_UP)
                   (l1 ++ EvNoInterrupts :: l2 ++ EvPressMultimediaKey MMKEY_VOL_UP :: l3)).
  { apply in_or_app. right. right. apply in_or_app. right. left. reflexivity. }
  rewrite <- H1 in Hin. simpl in Hin.
  destruct Hin as [E | [E | [E | E]]]; try discriminate E. exact E.
Qed.

(** C3 (amended): when [loop] finds [STATE_DATA_READY] it first runs
    [handleReceivedData] on the globals as the decoder left them, still in
    [STATE_DATA_READY] and still holding the code byte, so the command is
    processed and handed to the HID library first; only then does it call
    [reset], and last the HID poll.  Every key press of the iteration comes
    before the interrupt masking of [reset], and the iteration ends with the
    decoder cleared. *)
Theorem C3_dispatch_then_reset (now : Z) (s : Globals) :
  state s = STATE_DATA_READY ->
  let sa := fst (handleReceivedData now s) in
  let eva := snd (handleReceivedData now s) in
  loop now s = (fst (reset sa), eva ++ snd (reset sa) ++ [EvPoll]) /\
  state sa = STATE_DATA_READY /\ data sa = data s /\
  ~ In EvNoInterrupts eva /\
  (forall k, In (EvPressMultimediaKey k) (snd (loop now s)) ->
             precedes (EvPressMultimediaKey k) EvNoInterrupts (snd (loop now s))) /\
  fst (loop now s) = mkGlobals 0 0 0 STATE_NEED_START (lastPress sa).
Proof.
  intros Hst sa eva.
  pose proof (handleReceivedData_decoder now s) as (_ & _ & Hd & Hs).
  pose proof (handleReceivedData_events now s) as Hev.
  fold sa in Hd, Hs. fold eva in Hev.
  rewrite (loop_ready now s Hst). fold sa eva.
  split; [reflexivity |].
  split; [congruence |].
  split; [exact Hd |].
  split; [| split; [| reflexivity]].
  - destruct Hev as [-> | [k ->]]; simpl; intuition discriminate.
  - intros k Hin. simpl snd in *.
    destruct Hev as [E | [k' E]]; rewrite E in *.
    + simpl in Hin. destruct Hin as [H | [H | [H | H]]]; try discriminate H; contradiction.
    + simpl in Hin. destruct Hin as [H | [H | [H | [H | H]]]];
        try discriminate H; try contradiction.
      injection H as ->.
      exists [], [], [EvInterrupts; EvPoll]. reflexivity.
Qed.

(** A ready frame with code 208: the key goes out, then [reset] runs. *)
Lemma C3_dispatch_then_reset_witness :
  let s := mkGlobals 70000 32 208 STATE_DATA_READY 0 in
  state s = STATE_DATA_READY /\
  loop 5000 s =
    (mkGlobals 0 0 0 STATE_NEED_START 5000,
     [EvPressMultimediaKey MMKEY_VOL_DOWN; EvNoInterrupts; EvInterrupts; EvPoll]).
Proof.
  intro s.
  assert (Hst : state s = STATE_DATA_READY) by reflexivity.
  split; [exact Hst |].
  exact (proj1 (C3_dispatch_then_reset 5000 s Hst)).
Defined.

(** ** Mapping the code byte to a key *)

Lemma handleReceivedData_first (now : Z) (s : Globals) :
  lastPress s = 0 ->
  handleReceivedData now s =
    if data s =? VOL_UP then (set_lastPress now s, [EvPressMultimediaKey MMKEY_VOL_UP])
    else if data s =? VOL_DOWN then (set_lastPress now s, [EvPressMultimediaKey MMKEY_VOL_DOWN])
    else if data s =? MUTE then (set_lastPress now s, [EvPressMultimediaKey MMKEY_MUTE])
    else (s, []).
Proof.
  intros H. unfold handleReceivedData. rewrite H. reflexivity.
Qed.

Lemma handleReceivedData_unknown (now : Z) (s : Globals) :
  data s <> VOL_UP -> data s <> VOL_DOWN -> data s <> MUTE ->
  snd (handleReceivedData now s) = [].
Proof.
  intros H1 H2 H3. unfold handleReceivedData.
  apply Z.eqb_neq in H1, H2, H3. rewrite H1, H2, H3.
  destruct (negb (lastPress s =? 0) && (lastPress s >? now)); [reflexivity |].
  destruct (negb (lastPress s =? 0) && (to_TS (now - lastPress s) <? PRESS_DELAY));
    reflexivity.
Qed.

(** C9: with a frame ready and no key sent before ([lastPress] is 0), one
    loop iteration hands exactly one key to the HID library when the code
    byte is 0xE0 (volume up), 0xD0 (volume down) or 0xF0 (mute), whatever
    [millis()] reads; for every other code byte, whatever [lastPress] is, no
    key is handed over and the only calls are those of [reset] and the poll. *)
Theorem C9_code_to_key (now : Z) (s : Globals) :
  state s = STATE_DATA_READY ->
  (lastPress s = 0 ->
     (data s = 0xE0 ->
        snd (loop now s) =
          [EvPressMultimediaKey MMKEY_VOL_UP; EvNoInterrupts; EvInterrupts; EvPoll] /\
        keys (snd (loop now s)) = [MMKEY_VOL_UP]) /\
     (data s = 0xD0 ->
        snd (loop now s) =
          [EvPressMultimediaKey MMKEY_VOL_DOWN; EvNoInterrupts; EvInterrupts; EvPoll] /\
        keys (snd (loop now s)) = [MMKEY_VOL_DOWN]) /\
     (data s = 0xF0 ->
        snd (loop now s) =
          [EvPressMultimediaKey MMKEY_MUTE; EvNoInterrupts; EvInterrupts; EvPoll] /\
        keys (snd (loop now s)) = [MMKEY_MUTE])) /\
  (data s <> 0xE0 -> data s <> 0xD0 -> data s <> 0xF0 ->
     snd (loop now s) = [EvNoInterrupts; EvInterrupts; EvPoll] /\
     keys (snd (loop now s)) = []).
Proof.
  intros Hst. rewrite (loop_ready now s Hst). split.
  - intros Hl. rewrite (handleReceivedData_first now s Hl).
    repeat split; match goal with H : data s = _ |- _ => rewrite H end; reflexivity.
  - intros H1 H2 H3.
    rewrite (handleReceivedData_unknown now s H1 H2 H3). split; reflexivity.
Qed.

(** Code 0xF0 with no key sent before: the mute key, once. *)
Lemma C9_code_to_key_witness :
  let s := mkGlobals 70000 32 0xF0 STATE_DATA_READY 0 in
  (state s = STATE_DATA_READY /\ lastPress s = 0 /\ data s = 0xF0) /\
  keys (snd (loop 123456 s)) = [MMKEY_MUTE].
Proof.
  intro s.
  assert (Hst : state s = STATE_DATA_READY) by reflexivity.
  assert (Hl : lastPress s = 0) by reflexivity.
  assert (Hd : data s = 0xF0) by reflexivity.
  split; [repeat split; assumption |].
  destruct (C9_code_to_key 123456 s Hst) as [Hk _].
  destruct (Hk Hl) as (_ & _ & Hm).
  exact (proj2 (Hm Hd)).
Defined.

(** ** Debounce *)

(** The three ways [handleReceivedData] ends: the clock wrapped and the
    baseline is dropped; nothing happens; a key is sent and the time kept. *)
Lemma handleReceivedData_cases (now : Z) (s : Globals) :
  (handleReceivedData now s = (set_lastPress 0 s, []) /\
   lastPress s <> 0 /\ lastPress s > now) \/
  handleReceivedData now s = (s, []) \/
  (exists k,
     handleReceivedData now s = (set_lastPress now s, [EvPressMultimediaKey k]) /\
     (lastPress s = 0 \/
      (lastPress s <= now /\ PRESS_DELAY <= to_TS (now - lastPress s)))).
Proof.
  unfold handleReceivedData.
  destruct (lastPress s =? 0) eqn:E0; simpl negb; cbv beta iota; simpl andb.
  - apply Z.eqb_eq in E0.
    destruct (data s =? VOL_UP); [right; right; eexists; split; [reflexivity | auto] |].
    destruct (data s =? VOL_DOWN); [right; right; eexists; split; [reflexivity | auto] |].
    destruct (data s =? MUTE); [right; right; eexists; split; [reflexivity | auto] |].
    right. left. reflexivity.
  - apply Z.eqb_neq in E0.
    destruct (lastPress s >? now) eqn:E1.
    + left. rewrite Z.gtb_ltb in E1. apply Z.ltb_lt in E1.
      split; [reflexivity | split; [exact E0 | lia]].
    + rewrite Z.gtb_ltb in E1. apply Z.ltb_ge in E1.
      destruct (to_TS (now - lastPress s) <? PRESS_DELAY) eqn:E2.
      * right. left. reflexivity.
      * apply Z.ltb_ge in E2.
        destruct (data s =? VOL_UP); [right; right; eexists; split; [reflexivity | auto] |].
        destruct (data s =? VOL_DOWN); [right; right; eexists; split; [reflexivity | auto] |].
        destruct (data s =? MUTE); [right; right; eexists; split; [reflexivity | auto] |].
        right. left. reflexivity.
Qed.

(** The decoder never touches [lastPress]. *)
Lemma readIR_lastPress (now : Z) (s : Globals) :
  lastPress (fst (readIR now s)) = lastPress s.
Proof.
  unfold readIR.
  destruct (negb (lastRead s =? 0) && (lastRead s >? now)); [reflexivity |].
  destruct (negb (lastRead s =? 0) && (to_uint16 (to_TS (now - lastRead s)) >? 40 * MS)).
  - reflexivity.
  - unfold readIR_switch.
    destruct (state s =? STATE_NEED_START).
    { destruct (lastRead s =? 0); reflexivity. }
    destruct (state s =? STATE_NEED_START2).
    { destruct ((to_uint16 (to_TS (now - lastRead s)) >? 7 * MS) &&
                (to_uint16 (to_TS (now - lastRead s)) <? 11 * MS)); reflexivity. }
    destruct (state s =? STATE_DATA); [| reflexivity].
    destruct (classify (to_uint16 (to_TS (now - lastRead s)))); [| reflexivity].
    unfold store_bit. simpl.
    destruct ((pulseNum s >=? 16) && (pulseNum s <? 24)); simpl.
    + destruct (pulseNum s <? 23); simpl;
        match goal with |- context [if ?c then _ else _] => destruct c end; reflexivity.
    + match goal with |- context [if ?c then _ else _] => destruct c end; reflexivity.
Qed.

(** What one loop iteration does to [lastPress] and whether it sends a key. *)
Lemma loop_cases (now : Z) (s : Globals) :
  (keys (snd (loop now s)) = [] /\
   (lastPress (fst (loop now s)) = lastPress s \/
    (lastPress s > now /\ lastPress (fst (loop now s)) = 0))) \/
  (exists k,
     keys (snd (loop now s)) = [k] /\
     lastPress (fst (loop now s)) = now /\
     (lastPress s = 0 \/
      (lastPress s <= now /\ PRESS_DELAY <= to_TS (now - lastPress s)))).
Proof.
  destruct (Z.eq_dec (state s) STATE_DATA_READY) as [Hst | Hst].
  - rewrite (loop_ready now s Hst).
    destruct (handleReceivedData_cases now s) as [(E & H0 & H1) | [E | (k & E & H)]];
      rewrite E; simpl.
    + left. split; [reflexivity | right; split; [exact H1 | reflexivity]].
    + left. split; [reflexivity | left; reflexivity].
    + right. exists k. split; [reflexivity | split; [reflexivity | exact H]].
  - rewrite (loop_not_ready now s Hst). left. split; [reflexivity | left; reflexivity].
Qed.

Lemma millis_small (t : Z) : 0 < t < TS_MODULUS -> millis t = t.
Proof.
  intros H. unfold millis, to_TS. apply Z.mod_small. lia.
Qed.

Section DebounceTrace.

(** Once a key was sent at [p], every later key, as long as the clock does
    not wrap, is sent at [p + PRESS_DELAY] or later. *)
Lemma accepted_after_last (ins : list Input) :
  forall (s : Globals) (p : Z),
    lastPress s = p -> 0 < p ->
    Forall (fun t => p <= t /\ in_range t) (poll_times ins) ->
    StronglySorted Z.le (poll_times ins) ->
    Forall (fun t => PRESS_DELAY <= t - p) (accepted_times s ins).
Proof.
  induction ins as [| i rest IH]; intros s p Hp Hpos Hall Hsort; [constructor |].
  destruct i as [now_us | t]; simpl accepted_times.
  - simpl step. destruct (readIR now_us s) as [s1 ev1] eqn:E.
    assert (Hs1 : lastPress s1 = p).
    { rewrite <- Hp, <- (readIR_lastPress now_us s), E. reflexivity. }
    assert (Hgoal : Forall (fun t => PRESS_DELAY <= t - p) (accepted_times s1 rest))
      by (apply IH; assumption).
    destruct (keys ev1); exact Hgoal.
  - simpl poll_times in Hall, Hsort.
    inversion Hall as [| ? ? [Hle Hrange] Hall']. subst.
    apply StronglySorted_inv in Hsort. destruct Hsort as [Hsort Hhd].
    simpl step. rewrite (millis_small t Hrange).
    pose proof (loop_cases t s) as Hc.
    destruct (loop t s) as [s1 ev1]. simpl fst in Hc. simpl snd in Hc.
    destruct Hc as [(Hk & Hl) | (k & Hk & Hl & Hold)]; rewrite Hk.
    + apply IH; try assumption.
      destruct Hl as [Hl | [Hl _]]; [exact Hl | lia].
    + assert (Hgap : PRESS_DELAY <= t - lastPress s).
      { destruct Hold as [H0 | [_ Hd]]; [lia |].
        unfold to_TS in Hd. rewrite Z.mod_small in Hd; [exact Hd |].
        unfold in_range in Hrange. lia. }
      constructor; [exact Hgap |].
      apply Forall_impl with (P := fun t' => PRESS_DELAY <= t' - t).
      * intros a Ha. unfold PRESS_DELAY in *. lia.
      * apply IH; try assumption.
        -- unfold in_range in Hrange. lia.
        -- apply Forall_forall. intros x Hx.
           rewrite Forall_forall in Hhd, Hall'.
           split; [apply Hhd, Hx | apply (Hall' x Hx)].
Qed.

Lemma accepted_gaps (ins : list Input) :
  forall s : Globals,
    Forall in_range (poll_times ins) ->
    StronglySorted Z.le (poll_times ins) ->
    ForallOrdPairs (fun a b => PRESS_DELAY <= b - a) (accepted_times s ins).
Proof.
  induction ins as [| i rest IH]; intros s Hall Hsort; [constructor |].
  destruct i as [now_us | t]; simpl accepted_times.
  - simpl step. destruct (readIR now_us s) as [s1 ev1].
    assert (Hgoal : ForallOrdPairs (fun a b => PRESS_DELAY <= b - a)
                      (accepted_times s1 rest)) by (apply IH; assumption).
    destruct (keys ev1); exact Hgoal.
  - simpl poll_times in Hall, Hsort.
    inversion Hall as [| ? ? Hrange Hall']. subst.
    apply StronglySorted_inv in Hsort. destruct Hsort as [Hsort Hhd].
    simpl step. rewrite (millis_small t Hrange).
    pose proof (loop_cases t s) as Hc.
    destruct (loop t s) as [s1 ev1]. simpl fst in Hc. simpl snd in Hc.
    destruct Hc as [(Hk & _) | (k & Hk & Hl & _)]; rewrite Hk.
    + apply IH; assumption.
    + constructor; [| apply IH; assumption].
      apply accepted_after_last; try assumption.
      * unfold in_range in Hrange. lia.
      * apply Forall_forall. intros x Hx.
        rewrite Forall_forall in Hhd, Hall'.
        split; [apply Hhd, Hx | apply (Hall' x Hx)].
Qed.

End DebounceTrace.

(** A command that comes less than [PRESS_DELAY] after the last key, the
    clock not having wrapped, is dropped and [lastPress] keeps its value. *)
Lemma loop_drops_early (now : Z) (s : Globals) :
  lastPress s <> 0 -> lastPress s <= now -> now - lastPress s < PRESS_DELAY ->
  keys (snd (loop now s)) = [] /\ lastPress (fst (loop now s)) = lastPress s.
Proof.
  intros H0 Hle Hgap.
  assert (E : handleReceivedData now s = (s, [])).
  { unfold handleReceivedData.
    replace (lastPress s >? now) with false
      by (symmetry; rewrite Z.gtb_ltb; apply Z.ltb_ge; exact Hle).
    replace (to_TS (now - lastPress s) <? PRESS_DELAY) with true.
    - apply Z.eqb_neq in H0. rewrite H0. reflexivity.
    - symmetry. apply Z.ltb_lt. unfold to_TS. rewrite Z.mod_small; [exact Hgap |].
      unfold PRESS_DELAY, TS_MODULUS in *. change (2 ^ 32) with 4294967296. lia. }
  destruct (Z.eq_dec (state s) STATE_DATA_READY) as [Hst | Hst].
  - rewrite (loop_ready now s Hst), E. split; reflexivity.
  - rewrite (loop_not_ready now s Hst). split; reflexivity.
Qed.

(** C5 (counterexample): three frames with code 224 around the wrap of the
    millisecond clock, each followed by a loop iteration, at 50 ms before
    the wrap, 55 ms after it and 110 ms after it.  The first key is sent;
    the second iteration reads a clock below [lastPress], clears it and
    drops the command; the third finds [lastPress] empty and sends the key,
    160 ms of wall-clock time after the first one. *)
Lemma C5_counterexample :
  let code := frame_bits [1; 1; 1; 0; 0; 0; 0; 0] in
  let ins :=
    frame_edges (2 ^ 32 - 120000) code ++ [Poll (2 ^ 32 - 50)] ++
    frame_edges 1000 code ++ [Poll (2 ^ 32 + 55)] ++
    frame_edges 56000 code ++ [Poll (2 ^ 32 + 110)] in
  accepted_times boot ins = [2 ^ 32 - 50; 2 ^ 32 + 110] /\
  ~ ForallOrdPairs (fun a b => PRESS_DELAY <= b - a) (accepted_times boot ins).
Proof.
  intros code ins.
  assert (E : accepted_times boot ins = [2 ^ 32 - 50; 2 ^ 32 + 110])
    by (vm_compute; reflexivity).
  split; [exact E |].
  rewrite E. intros H.
  inversion H as [| a l Hall _]. subst.
  inversion Hall as [| b l' Hgap _]. subst.
  vm_compute in Hgap. apply Hgap. reflexivity.
Qed.

(** C5 (amended): as long as the millisecond clock neither wraps nor reads 0
    at a loop iteration (the wall-clock times of the iterations are
    non-decreasing and lie strictly between 0 and 2^32), any two keys handed
    to the HID library are at least [PRESS_DELAY] = 200 ms apart, from any
    state of the globals and for any interleaving of edges and loop
    iterations; and a command that comes less than 200 ms after a non-empty
    [lastPress] not above the clock is dropped and leaves [lastPress] as it
    was. *)
Theorem C5_debounce (s : Globals) (ins : list Input) :
  Forall (fun t => 0 < t < TS_MODULUS) (poll_times ins) ->
  StronglySorted Z.le (poll_times ins) ->
  ForallOrdPairs (fun a b => PRESS_DELAY <= b - a) (accepted_times s ins) /\
  (forall (now : Z) (s0 : Globals),
     lastPress s0 <> 0 -> lastPress s0 <= now -> now - lastPress s0 < PRESS_DELAY ->
     keys (snd (loop now s0)) = [] /\ lastPress (fst (loop now s0)) = lastPress s0).
Proof.
  intros Hall Hsort. split.
  - apply accepted_gaps; assumption.
  - intros now s0. apply loop_drops_early.
Qed.

(** Three frames handled at 100 ms, 250 ms and 320 ms: the keys go out at
    100 ms and 320 ms, the command at 250 ms is dropped. *)
Lemma C5_debounce_witness :
  let code := frame_bits [1; 1; 1; 0; 0; 0; 0; 0] in
  let ins :=
    frame_edges 1000 code ++ [Poll 100] ++
    frame_edges 120000 code ++ [Poll 250] ++
    frame_edges 260000 code ++ [Poll 320] in
  (Forall (fun t => 0 < t < TS_MODULUS) (poll_times ins) /\
   StronglySorted Z.le (poll_times ins)) /\
  accepted_times boot ins = [100; 320] /\
  ForallOrdPairs (fun a b => PRESS_DELAY <= b - a) (accepted_times boot ins).
Proof.
  intros code ins.
  assert (E : poll_times ins = [100; 250; 320]) by (vm_compute; reflexivity).
  assert (H1 : Forall (fun t => 0 < t < TS_MODULUS) (poll_times ins)).
  { rewrite E. repeat constructor. }
  assert (H2 : StronglySorted Z.le (poll_times ins)).
  { rewrite E. repeat constructor; discriminate. }
  split; [split; assumption |].
  split; [vm_compute; reflexivity |].
  exact (proj1 (C5_debounce boot ins H1 H2)).
Defined.

(** ** Assembling the code byte *)

Section StoreBit.
Variables (b : Z) (s : Globals).

Lemma store_bit_lastRead : lastRead (store_bit b s) = lastRead s.
Proof.
  unfold store_bit.
  destruct ((pulseNum s >=? 16) && (pulseNum s <? 24)); simpl;
    [destruct (pulseNum s <? 23); simpl |];
    match goal with |- context [if ?c then _ else _] => destruct c end; reflexivity.
Qed.

Lemma store_bit_lastPress : lastPress (store_bit b s) = lastPress s.
Proof.
  unfold store_bit.
  destruct ((pulseNum s >=? 16) && (pulseNum s <? 24)); simpl;
    [destruct (pulseNum s <? 23); simpl |];
    match goal with |- context [if ?c then _ else _] => destruct c end; reflexivity.
Qed.

Lemma store_bit_pulseNum :
  0 <= pulseNum s < 255 -> pulseNum (store_bit b s) = pulseNum s + 1.
Proof.
  intros H.
  assert (E : to_uint8 (pulseNum s + 1) = pulseNum s + 1).
  { unfold to_uint8. change (2 ^ 8) with 256. apply Z.mod_small. lia. }
  unfold store_bit.
  destruct ((pulseNum s >=? 16) && (pulseNum s <? 24)); simpl;
    [destruct (pulseNum s <? 23); simpl |];
    rewrite E;
    match goal with |- context [if ?c then _ else _] => destruct c end; reflexivity.
Qed.

(** The counter never reaches 32 before the last of 32 bits. *)
Lemma store_bit_state_data :
  0 <= pulseNum s -> pulseNum s + 1 < 32 -> state (store_bit b s) = state s.
Proof.
  intros H0 H.
  assert (E : to_uint8 (pulseNum s + 1) = pulseNum s + 1).
  { unfold to_uint8. change (2 ^ 8) with 256. apply Z.mod_small. lia. }
  assert (E32 : (pulseNum s + 1 >=? 32) = false).
  { rewrite Z.geb_leb. apply Z.leb_gt. lia. }
  unfold store_bit.
  destruct ((pulseNum s >=? 16) && (pulseNum s <? 24)); simpl;
    [destruct (pulseNum s <? 23); simpl |];
    rewrite E, E32; reflexivity.
Qed.

Lemma store_bit_state_ready :
  pulseNum s = 31 -> state (store_bit b s) = STATE_DATA_READY.
Proof.
  intros H. destruct s as [lr pn dt st lp]. simpl in H. subst pn. reflexivity.
Qed.

(** Outside positions 16 to 23 the bit is counted and thrown away. *)
Lemma store_bit_data_outside :
  pulseNum s < 16 \/ 24 <= pulseNum s -> data (store_bit b s) = data s.
Proof.
  intros H. unfold store_bit.
  replace ((pulseNum s >=? 16) && (pulseNum s <? 24)) with false.
  - match goal with |- context [if ?c then _ else _] => destruct c end; reflexivity.
  - symmetry. apply andb_false_iff. destruct H as [H | H].
    + left. rewrite Z.geb_leb. apply Z.leb_gt. exact H.
    + right. apply Z.ltb_ge. exact H.
Qed.

(** Positions 16 to 22: the bit is ORed in and the byte shifted. *)
Lemma store_bit_data_shift :
  16 <= pulseNum s < 23 ->
  data (store_bit b s) = to_uint8 (Z.shiftl (to_uint8 (Z.lor (data s) b)) 1).
Proof.
  intros H. unfold store_bit.
  replace ((pulseNum s >=? 16) && (pulseNum s <? 24)) with true.
  - simpl pulseNum.
    replace (pulseNum s <? 23) with true by (symmetry; apply Z.ltb_lt; lia).
    simpl. match goal with |- context [if ?c then _ else _] => destruct c end; reflexivity.
  - symmetry. apply andb_true_iff. split.
    + rewrite Z.geb_leb. apply Z.leb_le. lia.
    + apply Z.ltb_lt. lia.
Qed.

(** Position 23: the bit is ORed in, without a shift. *)
Lemma store_bit_data_last :
  pulseNum s = 23 -> data (store_bit b s) = to_uint8 (Z.lor (data s) b).
Proof.
  intros H. destruct s as [lr pn dt st lp]. simpl in H. subst pn. reflexivity.
Qed.

Lemma store_bit_set_lastRead (t : Z) :
  store_bit b (set_lastRead t s) = set_lastRead t (store_bit b s).
Proof.
  unfold store_bit. simpl.
  destruct ((pulseNum s >=? 16) && (pulseNum s <? 24)); simpl;
    [destruct (pulseNum s <? 23); simpl |];
    match goal with |- context [if ?c then _ else _] => destruct c end; reflexivity.
Qed.
End StoreBit.

(** ORing a bit into an even number adds it. *)
Lemma lor_even_bit (a b : Z) : b = 0 \/ b = 1 -> Z.lor (2 * a) b = 2 * a + b.
Proof.
  intros [-> | ->].
  - rewrite Z.lor_0_r. lia.
  - assert (H : Z.land (2 * a) 1 = 0).
    { change 1 with (Z.ones 1). rewrite Z.land_ones by lia.
      change (2 ^ 1) with 2. rewrite Z.mul_comm. apply Z.mod_mul. lia. }
    rewrite <- (Z.lxor_lor _ _ H). symmetry. apply Z.add_nocarry_lxor. exact H.
Qed.

Lemma feed_app (l l' : list Z) (s : Globals) :
  feed (l ++ l') s = feed l' (feed l s).
Proof. unfold feed. apply fold_left_app. Qed.

Lemma feed_set_lastRead (t : Z) (bits : list Z) :
  forall s, feed bits (set_lastRead t s) = set_lastRead t (feed bits s).
Proof.
  induction bits as [| b bits IH]; intros s; [reflexivity |].
  change (feed bits (store_bit b (set_lastRead t s)) =
          set_lastRead t (feed bits (store_bit b s))).
  rewrite store_bit_set_lastRead. apply IH.
Qed.

Lemma feed_lastPress (bits : list Z) :
  forall s, lastPress (feed bits s) = lastPress s.
Proof.
  induction bits as [| b bits IH]; intros s; [reflexivity |].
  change (lastPress (feed bits (store_bit b s)) = lastPress s).
  rewrite IH. apply store_bit_lastPress.
Qed.

Lemma feed_pulseNum (bits : list Z) :
  forall s,
    0 <= pulseNum s -> pulseNum s + Z.of_nat (length bits) <= 255 ->
    pulseNum (feed bits s) = pulseNum s + Z.of_nat (length bits).
Proof.
  induction bits as [| b bits IH]; intros s H0 H; [simpl; lia |].
  change (pulseNum (feed bits (store_bit b s)) = pulseNum s + Z.of_nat (length (b :: bits))).
  simpl length in *. rewrite Nat2Z.inj_succ in *.
  assert (Hp : pulseNum (store_bit b s) = pulseNum s + 1)
    by (apply store_bit_pulseNum; lia).
  rewrite IH; rewrite Hp; lia.
Qed.

Lemma feed_state_data (bits : list Z) :
  forall s,
    0 <= pulseNum s -> pulseNum s + Z.of_nat (length bits) < 32 ->
    state (feed bits s) = state s.
Proof.
  induction bits as [| b bits IH]; intros s H0 H; [reflexivity |].
  change (state (feed bits (store_bit b s)) = state s).
  simpl length in H. rewrite Nat2Z.inj_succ in H.
  assert (Hp : pulseNum (store_bit b s) = pulseNum s + 1)
    by (apply store_bit_pulseNum; lia).
  rewrite IH by (rewrite Hp; lia).
  apply store_bit_state_data; lia.
Qed.

Lemma feed_state_ready (bits : list Z) (s : Globals) :
  bits <> [] -> 0 <= pulseNum s -> pulseNum s + Z.of_nat (length bits) = 32 ->
  state (feed bits s) = STATE_DATA_READY.
Proof.
  intros Hne H0 H.
  destruct (exists_last Hne) as (l & x & ->).
  rewrite length_app in H. simpl length in H. rewrite Nat2Z.inj_add in H.
  rewrite feed_app.
  change (state (store_bit x (feed l s)) = STATE_DATA_READY).
  apply store_bit_state_ready.
  rewrite feed_pulseNum; lia.
Qed.

Lemma feed_data_outside (bits : list Z) :
  forall s,
    0 <= pulseNum s ->
    pulseNum s + Z.of_nat (length bits) <= 16 \/
    (24 <= pulseNum s /\ pulseNum s + Z.of_nat (length bits) <= 255) ->
    data (feed bits s) = data s.
Proof.
  induction bits as [| b bits IH]; intros s H0 H; [reflexivity |].
  change (data (feed bits (store_bit b s)) = data s).
  simpl length in H. rewrite Nat2Z.inj_succ in H.
  assert (Hp : pulseNum (store_bit b s) = pulseNum s + 1)
    by (apply store_bit_pulseNum; lia).
  rewrite IH by (rewrite Hp; lia).
  apply store_bit_data_outside. lia.
Qed.

(** Positions 16 to 22: the byte holds twice the number read so far, and
    nothing has been shifted out. *)
Lemma feed_data_shift (bits : list Z) :
  forall (s : Globals) (acc : Z),
    Forall is_bit bits ->
    16 <= pulseNum s -> pulseNum s + Z.of_nat (length bits) <= 23 ->
    data s = 2 * acc -> 0 <= acc < 2 ^ (pulseNum s - 16) ->
    let v := fold_left (fun a b => 2 * a + b) bits acc in
    data (feed bits s) = 2 * v /\
    0 <= v < 2 ^ (pulseNum s + Z.of_nat (length bits) - 16).
Proof.
  induction bits as [| b bits IH]; intros s acc Hbits H16 H23 Hd Hacc v.
  - subst v. simpl. split; [exact Hd |].
    replace (pulseNum s + 0 - 16) with (pulseNum s - 16) by lia. exact Hacc.
  - inversion Hbits as [| ? ? Hb Hbits']. subst.
    simpl length in *. rewrite Nat2Z.inj_succ in *.
    assert (Hp : pulseNum (store_bit b s) = pulseNum s + 1)
      by (apply store_bit_pulseNum; lia).
    assert (Hpow : 2 ^ (pulseNum s + 1 - 16) = 2 * 2 ^ (pulseNum s - 16)).
    { replace (pulseNum s + 1 - 16) with (Z.succ (pulseNum s - 16)) by lia.
      apply Z.pow_succ_r. lia. }
    assert (Hle : 2 ^ (pulseNum s - 16) <= 2 ^ 6)
      by (apply Z.pow_le_mono_r; lia).
    change (2 ^ 6) with 64 in Hle.
    assert (Hnew : data (store_bit b s) = 2 * (2 * acc + b)).
    { rewrite store_bit_data_shift by lia.
      rewrite Hd, (lor_even_bit acc b Hb).
      unfold to_uint8. change (2 ^ 8) with 256.
      rewrite (Z.mod_small (2 * acc + b)) by (destruct Hb; subst; lia).
      rewrite Z.shiftl_mul_pow2 by lia. change (2 ^ 1) with 2.
      rewrite Z.mod_small by (destruct Hb; subst; lia). lia. }
    assert (Hrange : 0 <= 2 * acc + b < 2 ^ (pulseNum (store_bit b s) - 16)).
    { rewrite Hp, Hpow. destruct Hb; subst; lia. }
    destruct (IH (store_bit b s) (2 * acc + b) Hbits') as [IH1 IH2];
      try assumption; try (rewrite Hp; lia).
    subst v. simpl fold_left. split; [exact IH1 |].
    rewrite Hp in IH2.
    replace (pulseNum s + Z.succ (Z.of_nat (length bits)) - 16)
      with (pulseNum s + 1 + Z.of_nat (length bits) - 16) by lia.
    exact IH2.
Qed.

(** Positions 16 to 23 of a frame, fed to a decoder that has counted 16
    pulses and holds an empty byte: the byte ends up as the 8 bits, first bit
    most significant. *)
Lemma feed_code_byte (B : list Z) (s : Globals) :
  length B = 8%nat -> Forall is_bit B ->
  pulseNum s = 16 -> data s = 0 ->
  data (feed B s) = msb_first B /\ pulseNum (feed B s) = 24.
Proof.
  intros Hlen HB Hp Hd.
  split; [| rewrite feed_pulseNum; rewrite ?Hlen, ?Hp; simpl; lia].
  assert (Hsplit : firstn 7 B ++ skipn 7 B = B) by apply firstn_skipn.
  assert (Hl7 : length (firstn 7 B) = 7%nat) by (rewrite length_firstn, Hlen; reflexivity).
  assert (Hl1 : length (skipn 7 B) = 1%nat) by (rewrite length_skipn, Hlen; reflexivity).
  destruct (skipn 7 B) as [| x [| y rest]]; try discriminate Hl1.
  rewrite <- Hsplit in HB |- *.
  apply Forall_app in HB. destruct HB as [HB7 Hx].
  inversion Hx as [| ? ? Hxb _]. subst.
  pose proof (feed_data_shift (firstn 7 B) s 0 HB7) as Hsh.
  rewrite Hl7, Hp, Hd in Hsh.
  specialize (Hsh ltac:(lia) ltac:(simpl; lia) ltac:(reflexivity) ltac:(simpl; lia)).
  cbv zeta in Hsh. destruct Hsh as [Hv Hvr].
  change (2 ^ (16 + Z.of_nat 7 - 16)) with 128 in Hvr.
  rewrite feed_app. unfold msb_first. rewrite fold_left_app.
  change (data (store_bit x (feed (firstn 7 B) s)) =
          2 * fold_left (fun acc b => 2 * acc + b) (firstn 7 B) 0 + x).
  rewrite store_bit_data_last by (rewrite feed_pulseNum; rewrite ?Hl7, ?Hp; simpl; lia).
  rewrite Hv, (lor_even_bit _ x Hxb).
  unfold to_uint8. change (2 ^ 8) with 256.
  apply Z.mod_small. destruct Hxb; subst; lia.
Qed.

(** A whole frame of 32 bits, fed to a decoder at pulse 0 with an empty
    byte. *)
Lemma feed_frame (bits : list Z) (s : Globals) :
  length bits = 32%nat -> Forall is_bit bits ->
  pulseNum s = 0 -> data s = 0 ->
  state (feed bits s) = STATE_DATA_READY /\
  data (feed bits s) = msb_first (firstn 8 (skipn 16 bits)).
Proof.
  intros Hlen Hbits Hp Hd. split.
  - apply feed_state_ready.
    + intros ->. discriminate Hlen.
    + lia.
    + rewrite Hp, Hlen. reflexivity.
  - set (A := firstn 16 bits). set (R := skipn 16 bits).
    set (B := firstn 8 R). set (C := skipn 8 R).
    assert (HlA : length A = 16%nat) by (unfold A; rewrite length_firstn, Hlen; reflexivity).
    assert (HlR : length R = 16%nat) by (unfold R; rewrite length_skipn, Hlen; reflexivity).
    assert (HlB : length B = 8%nat) by (unfold B; rewrite length_firstn, HlR; reflexivity).
    assert (HlC : length C = 8%nat) by (unfold C; rewrite length_skipn, HlR; reflexivity).
    assert (E : bits = A ++ B ++ C).
    { unfold A, B, C, R. rewrite !firstn_skipn. reflexivity. }
    assert (HB : Forall is_bit B).
    { rewrite E in Hbits. apply Forall_app in Hbits. destruct Hbits as [_ Hbits].
      apply Forall_app in Hbits. apply Hbits. }
    rewrite E at 1. rewrite !feed_app.
    assert (HpA : pulseNum (feed A s) = 16)
      by (rewrite feed_pulseNum; rewrite ?HlA, ?Hp; simpl; lia).
    assert (HdA : data (feed A s) = 0).
    { rewrite feed_data_outside; [exact Hd | lia |]. left. rewrite HlA, Hp. simpl. lia. }
    destruct (feed_code_byte B (feed A s) HlB HB HpA HdA) as [HdB HpB].
    rewrite feed_data_outside; [exact HdB | lia |].
    right. rewrite HpB, HlC. simpl. lia.
Qed.

(** Bit [i] of the list, counted from the front, is binary digit
    [length l - 1 - i] of [msb_first l]. *)
Lemma msb_first_snoc (l : list Z) (x : Z) :
  msb_first (l ++ [x]) = 2 * msb_first l + x.
Proof. unfold msb_first. rewrite fold_left_app. reflexivity. Qed.

Lemma msb_first_testbit (l : list Z) :
  Forall is_bit l ->
  forall i : nat, (i < length l)%nat ->
    Z.testbit (msb_first l) (Z.of_nat (length l) - 1 - Z.of_nat i) = (nth i l 0 =? 1).
Proof.
  induction l as [| x l IH] using rev_ind; intros Hl i Hi; [simpl in Hi; lia |].
  apply Forall_app in Hl. destruct Hl as [Hl Hx].
  inversion Hx as [| ? ? Hxb _]. subst.
  rewrite length_app in *. simpl length in *.
  rewrite msb_first_snoc.
  destruct (Nat.eq_dec i (length l)) as [-> | Hne].
  - rewrite nth_middle.
    replace (Z.of_nat (length l + 1) - 1 - Z.of_nat (length l)) with 0 by lia.
    destruct Hxb as [-> | ->].
    + rewrite Z.add_0_r. apply Z.testbit_even_0.
    + apply Z.testbit_odd_0.
  - assert (Hlt : (i < length l)%nat) by lia.
    rewrite app_nth1 by exact Hlt.
    replace (Z.of_nat (length l + 1) - 1 - Z.of_nat i)
      with (Z.succ (Z.of_nat (length l) - 1 - Z.of_nat i)) by lia.
    rewrite <- (IH Hl i Hlt).
    destruct Hxb as [-> | ->].
    + rewrite Z.add_0_r. apply Z.testbit_even_succ. lia.
    + apply Z.testbit_odd_succ. lia.
Qed.

(** ** A whole frame, edge by edge *)

Lemma set_lastRead_twice (a b : Z) (s : Globals) :
  set_lastRead a (set_lastRead b s) = set_lastRead a s.
Proof. reflexivity. Qed.

Lemma classified_bits (ds bits : list Z) :
  Forall2 (fun d b => classify d = Some b) ds bits -> Forall is_bit bits.
Proof.
  induction 1 as [| d b ds bits H _ IH]; constructor.
  - exact (classify_bit d b H).
  - exact IH.
Qed.

Lemma classified_sum_nonneg (ds bits : list Z) :
  Forall2 (fun d b => classify d = Some b) ds bits -> 0 <= sumZ ds.
Proof.
  induction 1 as [| d b ds bits H _ IH]; simpl; [lia |].
  pose proof (classify_range d b H). lia.
Qed.

(** The data phase: edges at regular intervals after the last recorded edge
    store their bits one by one. *)
Lemma run_data_edges (ds : list Z) :
  forall (bits : list Z) (s : Globals),
    Forall2 (fun d b => classify d = Some b) ds bits ->
    state s = STATE_DATA ->
    0 <= pulseNum s -> pulseNum s + Z.of_nat (length ds) <= 32 ->
    run_edges s (edge_times (lastRead s) ds) =
      set_lastRead (lastRead s + sumZ ds) (feed bits s).
Proof.
  induction ds as [| d ds IH]; intros bits s Hc Hst Hp0 Hp.
  - inversion Hc. subst. simpl. rewrite Z.add_0_r. destruct s. reflexivity.
  - inversion Hc as [| ? b ? bits' Hd Hc']. subst.
    simpl length in Hp. rewrite Nat2Z.inj_succ in Hp.
    pose proof (classify_range d b Hd) as Hr.
    set (now := lastRead s + d).
    assert (Hdelta : delta_of now s = d).
    { rewrite delta_of_small; unfold now; lia. }
    assert (Hstep : readIR now s = (set_lastRead now (store_bit b s), [])).
    { apply readIR_data_bit.
      - exact Hst.
      - right. unfold now. lia.
      - right. rewrite Hdelta. unfold MS. lia.
      - rewrite Hdelta. exact Hd. }
    change (run_edges (fst (readIR now s)) (edge_times now ds) =
            set_lastRead (lastRead s + sumZ (d :: ds)) (feed bits' (store_bit b s))).
    rewrite Hstep. simpl fst.
    destruct ds as [| d' ds'].
    + assert (bits' = []) as -> by (inversion Hc'; reflexivity).
      simpl. unfold now. rewrite Z.add_0_r. reflexivity.
    + simpl length in Hp. rewrite Nat2Z.inj_succ in Hp.
      set (s' := set_lastRead now (store_bit b s)).
      assert (Hps : pulseNum (store_bit b s) = pulseNum s + 1)
        by (apply store_bit_pulseNum; lia).
      change (edge_times now (d' :: ds')) with (edge_times (lastRead s') (d' :: ds')).
      rewrite (IH bits' s' Hc').
      * unfold s'. rewrite feed_set_lastRead.
        change (lastRead (set_lastRead now (store_bit b s))) with now.
        change (sumZ (d :: d' :: ds')) with (d + sumZ (d' :: ds')).
        rewrite set_lastRead_twice. unfold now. f_equal. lia.
      * unfold s'. simpl. rewrite store_bit_state_data by lia. exact Hst.
      * unfold s'. simpl. rewrite Hps. lia.
      * unfold s'. simpl pulseNum. rewrite Hps.
        change (length (d' :: ds')) with (S (length ds')).
        rewrite Nat2Z.inj_succ. lia.
Qed.

Lemma micros_small (t : Z) : 0 <= t < TS_MODULUS -> micros t = t.
Proof. intros H. unfold micros, to_TS. apply Z.mod_small. exact H. Qed.

(** C1 (counterexample): the frame of the volume-up key, 34 edges at regular
    intervals, its first edge 5000 us before [micros()] wraps.  The first
    edge reads 4294962296 and the start marker, 9 ms later, reads 4000: the
    recorded edge is above the clock, the handler resets, and the edges that
    follow never add up to a frame.  The decoder does not end in
    [STATE_DATA_READY]. *)
Lemma C1_counterexample :
  let bits := frame_bits [1; 1; 1; 0; 0; 0; 0; 0] in
  let ds := map interval_of_bit bits in
  let wall := 2 ^ 32 - 5000 in
  let readings := map micros (wall :: edge_times wall (9 * MS :: ds)) in
  7 * MS < 9 * MS < 11 * MS /\
  length ds = 32%nat /\
  Forall2 (fun d b => classify d = Some b) ds bits /\
  firstn 2 readings = [4294962296; 4000] /\
  state (run_edges boot readings) <> STATE_DATA_READY.
Proof.
  intros bits ds wall readings.
  split; [unfold MS; lia |].
  split; [reflexivity |].
  split; [unfold ds, bits, frame_bits; simpl; repeat constructor |].
  split; [vm_compute; reflexivity |].
  vm_compute. discriminate.
Qed.

(** C1 (amended): from [STATE_NEED_START] with no edge recorded and an empty
    code byte (the state at power-up and after every [reset]), take a first
    edge at [t0], an edge [d0] later with [d0] strictly between 7 ms and 11 ms,
    and 32 more edges at intervals [ds], each classified by the handler as a
    bit ([bits] are the values it assigns), with no wrap of [micros()] inside
    the frame: the readings run from [t0 >= 0] to a last one below 2^32.  The
    handler ends in [STATE_DATA_READY] and [data] is the
    number whose binary digits are bits 16 to 23 in arrival order, most
    significant first: bit 16 + i of the frame is binary digit 7 - i of
    [data]. *)
Theorem C1_frame_code_byte (s : Globals) (t0 d0 : Z) (ds bits : list Z) :
  state s = STATE_NEED_START -> lastRead s = 0 -> data s = 0 ->
  0 <= t0 ->
  7 * MS < d0 < 11 * MS ->
  length ds = 32%nat ->
  Forall2 (fun d b => classify d = Some b) ds bits ->
  t0 + d0 + sumZ ds < TS_MODULUS ->
  let s' := run_edges s (t0 :: edge_times t0 (d0 :: ds)) in
  state s' = STATE_DATA_READY /\
  data s' = msb_first (firstn 8 (skipn 16 bits)) /\
  (forall i : nat, (i < 8)%nat ->
     Z.testbit (data s') (7 - Z.of_nat i) = (nth (16 + i) bits 0 =? 1)).
Proof.
  intros Hst Hl Hd Ht0 Hd0 Hlen Hc Hmax s'.
  assert (Hblen : length bits = 32%nat) by (rewrite <- (Forall2_length Hc); exact Hlen).
  assert (Hbits : Forall is_bit bits) by exact (classified_bits ds bits Hc).
  set (s1 := set_state STATE_NEED_START2 (set_lastRead t0 s)).
  set (s2 := mkGlobals (t0 + d0) 0 (data s1) STATE_DATA (lastPress s1)).
  assert (E1 : readIR t0 s = (s1, [])) by (apply readIR_first_edge; assumption).
  assert (Hdelta : delta_of (t0 + d0) s1 = d0).
  { rewrite delta_of_small; unfold s1; simpl; unfold MS in Hd0; lia. }
  assert (E2 : readIR (t0 + d0) s1 = (s2, [])).
  { apply readIR_start_marker.
    - reflexivity.
    - right. unfold s1. simpl. unfold MS in Hd0. lia.
    - rewrite Hdelta. exact Hd0. }
  assert (Es' : s' = set_lastRead (t0 + d0 + sumZ ds) (feed bits s2)).
  { unfold s'.
    change (run_edges (fst (readIR (t0 + d0) (fst (readIR t0 s)))) (edge_times (t0 + d0) ds) =
            set_lastRead (t0 + d0 + sumZ ds) (feed bits s2)).
    rewrite E1. simpl fst. rewrite E2. simpl fst.
    change (edge_times (t0 + d0) ds) with (edge_times (lastRead s2) ds).
    rewrite (run_data_edges ds bits s2 Hc); [reflexivity | reflexivity | simpl; lia |].
    rewrite Hlen. simpl. lia. }
  destruct (feed_frame bits s2 Hblen Hbits) as [Hstate Hdata];
    [reflexivity | unfold s2, s1; simpl; exact Hd |].
  assert (Hdata' : data s' = msb_first (firstn 8 (skipn 16 bits)))
    by (rewrite Es'; exact Hdata).
  split; [rewrite Es'; exact Hstate | split; [exact Hdata' |]].
  intros i Hi. rewrite Hdata'.
  set (B := firstn 8 (skipn 16 bits)).
  assert (HlB : length B = 8%nat).
  { unfold B. rewrite length_firstn, length_skipn, Hblen. reflexivity. }
  assert (HB : Forall is_bit B).
  { unfold B. rewrite <- (firstn_skipn 16 bits) in Hbits.
    apply Forall_app in Hbits. destruct Hbits as [_ Hbits].
    rewrite <- (firstn_skipn 8 (skipn 16 bits)) in Hbits.
    apply Forall_app in Hbits. apply Hbits. }
  pose proof (msb_first_testbit B HB i) as Hbit.
  rewrite HlB in Hbit. specialize (Hbit Hi).
  change (Z.of_nat 8 - 1) with 7 in Hbit. rewrite Hbit.
  unfold B. rewrite nth_firstn.
  replace (i <? 8)%nat with true by (symmetry; apply Nat.ltb_lt; exact Hi).
  rewrite nth_skipn. reflexivity.
Qed.

(** The frame of the volume-up key, first edge at 1000 us: the decoder ends
    ready with code 0xE0. *)
Lemma C1_frame_code_byte_witness :
  let bits := frame_bits [1; 1; 1; 0; 0; 0; 0; 0] in
  let ds := map interval_of_bit bits in
  let s' := run_edges boot (1000 :: edge_times 1000 (9 * MS :: ds)) in
  (7 * MS < 9 * MS < 11 * MS /\ length ds = 32%nat /\
   1000 + 9 * MS + sumZ ds < TS_MODULUS) /\
  state s' = STATE_DATA_READY /\ data s' = 0xE0.
Proof.
  intros bits ds s'.
  assert (H1 : 7 * MS < 9 * MS < 11 * MS) by (unfold MS; lia).
  assert (H2 : length ds = 32%nat) by reflexivity.
  assert (H3 : 1000 + 9 * MS + sumZ ds < TS_MODULUS) by (vm_compute; reflexivity).
  assert (H4 : Forall2 (fun d b => classify d = Some b) ds bits).
  { unfold ds, bits, frame_bits. simpl. repeat constructor. }
  assert (H0 : 0 <= 1000) by lia.
  split; [repeat split; assumption |].
  destruct (C1_frame_code_byte boot 1000 (9 * MS) ds bits
              eq_refl eq_refl eq_refl H0 H1 H2 H4 H3) as (Hs & Hd & _).
  split; [exact Hs | exact Hd].
Defined.

(** ** The idle decoder

    As long as no edge interrupts a loop iteration, a decoder that waits for
    a first edge has no edge recorded and an empty code byte, from power-up
    on, whatever edges and loop iterations came before. *)

Lemma store_bit_state_cases (b : Z) (s : Globals) :
  state (store_bit b s) = state s \/ state (store_bit b s) = STATE_DATA_READY.
Proof.
  unfold store_bit.
  destruct ((pulseNum s >=? 16) && (pulseNum s <? 24)); simpl;
    [destruct (pulseNum s <? 23); simpl |];
    match goal with |- context [if ?c then _ else _] => destruct c end; simpl; auto.
Qed.

Lemma idle_inv_cleared (s : Globals) : idle_inv (cleared s).
Proof. split; intros _; simpl; auto. Qed.

Lemma readIR_idle_inv (now : Z) (s : Globals) :
  idle_inv s -> idle_inv (fst (readIR now s)).
Proof.
  intros [I0 I1]. unfold readIR.
  destruct (negb (lastRead s =? 0) && (lastRead s >? now)); [apply idle_inv_cleared |].
  destruct (negb (lastRead s =? 0) && (to_uint16 (to_TS (now - lastRead s)) >? 40 * MS)).
  { split; simpl; [discriminate | reflexivity]. }
  unfold readIR_switch.
  destruct (state s =? STATE_NEED_START) eqn:E0.
  { apply Z.eqb_eq in E0. destruct (I0 E0) as [Hl Hd]. rewrite Hl. simpl.
    split; simpl; [discriminate | intros _; exact Hd]. }
  destruct (state s =? STATE_NEED_START2) eqn:E1.
  { destruct ((to_uint16 (to_TS (now - lastRead s)) >? 7 * MS) &&
              (to_uint16 (to_TS (now - lastRead s)) <? 11 * MS)).
    - split; simpl; discriminate.
    - apply idle_inv_cleared. }
  apply Z.eqb_neq in E0, E1.
  destruct (state s =? STATE_DATA) eqn:E2.
  { apply Z.eqb_eq in E2.
    destruct (classify (to_uint16 (to_TS (now - lastRead s)))) as [b |];
      [| apply idle_inv_cleared].
    simpl fst.
    assert (Hs : state (set_lastRead now (store_bit b s)) = STATE_DATA \/
                 state (set_lastRead now (store_bit b s)) = STATE_DATA_READY).
    { simpl. destruct (store_bit_state_cases b s) as [H | H]; rewrite H; auto. }
    split; intros H; destruct Hs as [Hs | Hs]; rewrite Hs in H; discriminate H. }
  split; simpl; intros H; contradiction.
Qed.

Lemma loop_idle_inv (now : Z) (s : Globals) :
  idle_inv s -> idle_inv (fst (loop now s)).
Proof.
  intros I.
  destruct (Z.eq_dec (state s) STATE_DATA_READY) as [Hst | Hst].
  - rewrite (loop_ready now s Hst). apply idle_inv_cleared.
  - rewrite (loop_not_ready now s Hst). exact I.
Qed.

Lemma run_idle_inv (ins : list Input) :
  forall s, idle_inv s -> idle_inv (fst (run s ins)).
Proof.
  induction ins as [| i rest IH]; intros s I; [exact I |].
  simpl run.
  assert (I1 : idle_inv (fst (step i s))).
  { destruct i; simpl step; [apply readIR_idle_inv | apply loop_idle_inv]; exact I. }
  destruct (step i s) as [s1 ev1]. simpl fst in I1.
  specialize (IH s1 I1). destruct (run s1 rest) as [s2 ev2]. exact IH.
Qed.

(** Every decoder reached from power-up by handlers and loop iterations that
    do not overlap, and that waits for a first edge, has no edge recorded and
    an empty code byte. *)
Lemma reachable_idle (ins : list Input) :
  let s := fst (run boot ins) in
  state s = STATE_NEED_START -> lastRead s = 0 /\ data s = 0.
Proof.
  intros s. apply (run_idle_inv ins boot). split; intros _; simpl; auto.
Qed.

(** * Further properties of the sketch *)

(** ** The [switch] of [readIR], state by state *)

Lemma readIR_switch_need_start (now delta : Z) (s : Globals) :
  state s = STATE_NEED_START ->
  readIR_switch now delta s =
    if lastRead s =? 0
    then (set_state STATE_NEED_START2 (set_lastRead now s), [], Return)
    else (s, [], Break).
Proof. intros H. unfold readIR_switch. rewrite H. reflexivity. Qed.

Lemma readIR_switch_need_start2 (now delta : Z) (s : Globals) :
  state s = STATE_NEED_START2 ->
  readIR_switch now delta s =
    if (delta >? 7 * MS) && (delta <? 11 * MS)
    then (set_state STATE_DATA (set_pulseNum 0 s), [], Break)
    else (cleared s, [EvNoInterrupts; EvInterrupts], Return).
Proof. intros H. unfold readIR_switch. rewrite H. reflexivity. Qed.

Lemma readIR_switch_data (now delta : Z) (s : Globals) :
  state s = STATE_DATA ->
  readIR_switch now delta s =
    match classify delta with
    | Some dataBit => (store_bit dataBit s, [], Break)
    | None => (cleared s, [EvNoInterrupts; EvInterrupts], Return)
    end.
Proof. intros H. unfold readIR_switch. rewrite H. reflexivity. Qed.

Lemma readIR_switch_ready (now delta : Z) (s : Globals) :
  state s = STATE_DATA_READY -> readIR_switch now delta s = (s, [], Break).
Proof. intros H. unfold readIR_switch. rewrite H. reflexivity. Qed.

(** ** The pulse counter, with interrupts inside the loop *)

Lemma to_uint8_range (x : Z) : 0 <= to_uint8 x < 256.
Proof. unfold to_uint8. change (2 ^ 8) with 256. apply Z.mod_pos_bound. lia. Qed.

Ltac solve_counter_inv :=
  unfold counter_inv; simpl;
  repeat match goal with |- _ /\ _ => split end;
  try lia; try (intros; discriminate); try assumption; auto.

Lemma counter_inv_boot : counter_inv boot.
Proof. solve_counter_inv. Qed.

Lemma counter_inv_cleared (s : Globals) : counter_inv (cleared s).
Proof. solve_counter_inv. Qed.

Lemma counter_inv_store_bit (b : Z) (s : Globals) :
  counter_inv s -> state s = STATE_DATA -> counter_inv (store_bit b s).
Proof.
  intros (Hd & Hp & Hlt & _) Hst. specialize (Hlt Hst).
  assert (Hp' : pulseNum (store_bit b s) = pulseNum s + 1)
    by (apply store_bit_pulseNum; lia).
  assert (Hrange : 0 <= data (store_bit b s) < 256).
  { destruct (Z_lt_ge_dec (pulseNum s) 16) as [Hlo | Hlo];
      [rewrite store_bit_data_outside by lia; exact Hd |].
    destruct (Z_lt_ge_dec (pulseNum s) 23) as [Hmid | Hmid];
      [rewrite store_bit_data_shift by lia; apply to_uint8_range |].
    destruct (Z.eq_dec (pulseNum s) 23) as [H23 | H23];
      [rewrite store_bit_data_last by exact H23; apply to_uint8_range |].
    rewrite store_bit_data_outside by lia. exact Hd. }
  split; [exact Hrange | split; [lia |]].
  destruct (Z.eq_dec (pulseNum s) 31) as [H31 | H31].
  - pose proof (store_bit_state_ready b s H31) as E. rewrite E.
    split; [intros H; discriminate H | auto].
  - rewrite store_bit_state_data by lia. rewrite Hst.
    split; [intros _; lia | auto].
Qed.

Lemma counter_inv_set_lastRead (t : Z) (s : Globals) :
  counter_inv s -> counter_inv (set_lastRead t s).
Proof. intros H. exact H. Qed.

Lemma readIR_counter_inv (now : Z) (s : Globals) :
  counter_inv s -> counter_inv (fst (readIR now s)).
Proof.
  intros I. unfold readIR.
  destruct (negb (lastRead s =? 0) && (lastRead s >? now)); [apply counter_inv_cleared |].
  destruct (negb (lastRead s =? 0) && (to_uint16 (to_TS (now - lastRead s)) >? 40 * MS)).
  { solve_counter_inv. }
  set (delta := to_uint16 (to_TS (now - lastRead s))).
  pose proof I as (Hd & Hp & Hlt & Hst).
  destruct Hst as [E | [E | [E | E]]].
  - rewrite (readIR_switch_need_start now delta s E).
    destruct (lastRead s =? 0); simpl fst.
    + solve_counter_inv.
    + apply counter_inv_set_lastRead, I.
  - rewrite (readIR_switch_need_start2 now delta s E).
    destruct ((delta >? 7 * MS) && (delta <? 11 * MS)); [| apply counter_inv_cleared].
    simpl fst. solve_counter_inv.
  - rewrite (readIR_switch_data now delta s E).
    destruct (classify delta) as [b |]; [| apply counter_inv_cleared].
    simpl fst. apply counter_inv_set_lastRead, counter_inv_store_bit; assumption.
  - rewrite (readIR_switch_ready now delta s E). simpl fst.
    apply counter_inv_set_lastRead, I.
Qed.

Lemma loop_stmt_counter_inv (now : Z) (pc : LoopPc) (s : Globals) :
  counter_inv s -> counter_inv (snd (fst (loop_stmt now pc s))).
Proof.
  intros I. pose proof I as (Hd & Hp & Hlt & Hst).
  destruct pc; simpl loop_stmt.
  - destruct (state s =? STATE_DATA_READY); exact I.
  - pose proof (handleReceivedData_decoder now s) as (_ & E1 & E2 & E3).
    destruct (handleReceivedData now s) as [s1 ev]. simpl in *.
    unfold counter_inv. rewrite E1, E2, E3. exact I.
  - exact I.
  - solve_counter_inv.
  - solve_counter_inv.
  - solve_counter_inv.
  - exact I.
Qed.

Lemma preempt_step_counter_inv (i : Preempt) (c : LoopPc * Globals) :
  counter_inv (snd c) -> counter_inv (snd (fst (preempt_step i c))).
Proof.
  destruct c as [pc s]. simpl snd. intros I. destruct i as [now_us | now_ms]; simpl.
  - pose proof (readIR_counter_inv now_us s I) as H.
    destruct (readIR now_us s) as [s1 ev]. exact H.
  - pose proof (loop_stmt_counter_inv now_ms pc s I) as H.
    destruct (loop_stmt now_ms pc s) as [[pc1 s1] ev]. exact H.
Qed.

Lemma preempt_run_counter_inv (ins : list Preempt) :
  forall c, counter_inv (snd c) -> counter_inv (snd (fst (preempt_run c ins))).
Proof.
  induction ins as [| i rest IH]; intros c I; [exact I |].
  simpl preempt_run.
  pose proof (preempt_step_counter_inv i c I) as I1.
  destruct (preempt_step i c) as [c1 ev1]. simpl fst in I1.
  specialize (IH c1 I1). destruct (preempt_run c1 rest) as [c2 ev2]. exact IH.
Qed.

(** Run without an interrupt in between, the statements of [loop] are
    [loop]: seven of them when a frame is ready, two otherwise. *)
Lemma loop_stmts_uninterrupted (now : Z) (s : Globals) :
  preempt_run (AtCheck, s)
              (repeat (Stmt now) (if state s =? STATE_DATA_READY then 7 else 2)) =
    ((AtCheck, fst (loop now s)), snd (loop now s)).
Proof.
  destruct (Z.eq_dec (state s) STATE_DATA_READY) as [Hst | Hst].
  - rewrite (loop_ready now s Hst). rewrite Hst. simpl. rewrite Hst. simpl.
    destruct (handleReceivedData now s) as [s1 ev]. simpl.
    reflexivity.
  - rewrite (loop_not_ready now s Hst). apply Z.eqb_neq in Hst.
    rewrite Hst. simpl. rewrite Hst. reflexivity.
Qed.

(** An edge that arrives inside [reset], after [interrupts()] and before the
    three byte stores, is recorded in [lastRead] and stays recorded when
    [reset] ends in [STATE_NEED_START]: what holds of the idle decoder
    between uninterrupted loop iterations does not hold at every moment. *)
Lemma edge_inside_reset_stays_recorded :
  let ready := mkGlobals 70000 32 224 STATE_DATA_READY 0 in
  let ins := [Stmt 5000; Stmt 5000; Stmt 5000; Irq 71000;
              Stmt 5000; Stmt 5000; Stmt 5000; Stmt 5000] in
  fst (preempt_run (AtCheck, ready) ins) =
    (AtCheck, mkGlobals 71000 0 0 STATE_NEED_START 5000).
Proof. vm_compute. reflexivity. Qed.

(** X1: at every moment, whatever edges interrupt the main loop and between
    whichever of its statements ([reset] included), from power-up on: the
    decoder is in one of its four states, the pulse counter lies between 0
    and 32 and is below 32 in the data phase, so the [uint8] increment after
    the comment "cannot overflow" never wraps, and the code byte fits 8
    bits. *)
Theorem X1_counter_never_overflows (ins : list Preempt) :
  let s := snd (fst (preempt_run (AtCheck, boot) ins)) in
  0 <= data s < 256 /\
  0 <= pulseNum s <= 32 /\
  (state s = STATE_DATA -> pulseNum s < 32) /\
  (state s = STATE_NEED_START \/ state s = STATE_NEED_START2 \/
   state s = STATE_DATA \/ state s = STATE_DATA_READY).
Proof.
  intros s. exact (preempt_run_counter_inv ins (AtCheck, boot) counter_inv_boot).
Qed.

(** ** What the handler and the dispatcher leave alone *)

Lemma readIR_events (now : Z) (s : Globals) :
  snd (readIR now s) = [] \/ snd (readIR now s) = [EvNoInterrupts; EvInterrupts].
Proof.
  unfold readIR.
  destruct (negb (lastRead s =? 0) && (lastRead s >? now)); [right; reflexivity |].
  destruct (negb (lastRead s =? 0) && (to_uint16 (to_TS (now - lastRead s)) >? 40 * MS)).
  { right. reflexivity. }
  unfold readIR_switch.
  destruct (state s =? STATE_NEED_START).
  { destruct (lastRead s =? 0); left; reflexivity. }
  destruct (state s =? STATE_NEED_START2).
  { destruct ((to_uint16 (to_TS (now - lastRead s)) >? 7 * MS) &&
              (to_uint16 (to_TS (now - lastRead s)) <? 11 * MS));
      [left | right]; reflexivity. }
  destruct (state s =? STATE_DATA); [| left; reflexivity].
  destruct (classify (to_uint16 (to_TS (now - lastRead s)))); [left | right]; reflexivity.
Qed.

(** X2: the edge handler never calls the HID library and never writes
    [lastPress]: whatever the state and the clock, the only calls it makes
    are the [noInterrupts()]/[interrupts()] pair of at most one [reset].
    [DEFAULT_handleReceivedData] in turn never writes a decoder global and
    makes no call but at most one key press. *)
Theorem X2_handler_dispatcher_separation (now : Z) (s : Globals) :
  (lastPress (fst (readIR now s)) = lastPress s /\
   keys (snd (readIR now s)) = [] /\
   (snd (readIR now s) = [] \/ snd (readIR now s) = [EvNoInterrupts; EvInterrupts])) /\
  (let sa := fst (handleReceivedData now s) in
   lastRead sa = lastRead s /\ pulseNum sa = pulseNum s /\
   data sa = data s /\ state sa = state s) /\
  (snd (handleReceivedData now s) = [] \/
   exists k, snd (handleReceivedData now s) = [EvPressMultimediaKey k]).
Proof.
  split; [| split].
  - split; [apply readIR_lastPress | split; [| apply readIR_events]].
    destruct (readIR_events now s) as [E | E]; rewrite E; reflexivity.
  - apply handleReceivedData_decoder.
  - apply handleReceivedData_events.
Qed.

(** ** Interrupt masking *)

Lemma masking_balanced_app (a b : list Event) :
  masking_balanced a -> masking_balanced b -> masking_balanced (a ++ b).
Proof.
  intros Ha Hb. induction Ha; simpl; try constructor; assumption.
Qed.

Lemma masking_balanced_step (i : Input) (s : Globals) :
  masking_balanced (snd (step i s)).
Proof.
  destruct i as [now_us | t]; simpl step.
  - destruct (readIR_events now_us s) as [E | E]; rewrite E; repeat constructor.
  - destruct (Z.eq_dec (state s) STATE_DATA_READY) as [Hst | Hst].
    + rewrite (loop_ready (millis t) s Hst). simpl snd.
      destruct (handleReceivedData_events (millis t) s) as [E | [k E]]; rewrite E;
        repeat constructor.
    + rewrite (loop_not_ready (millis t) s Hst). repeat constructor.
Qed.

(** X3: in the calls of any sequence of edges and loop iterations, from any
    state of the globals, every [noInterrupts()] is immediately followed by
    [interrupts()], and [interrupts()] occurs nowhere else: interrupts are
    never left masked and are masked across no call to the HID library. *)
Theorem X3_interrupts_never_left_masked (ins : list Input) :
  forall s : Globals, masking_balanced (snd (run s ins)).
Proof.
  induction ins as [| i rest IH]; intros s; [constructor |].
  simpl run.
  pose proof (masking_balanced_step i s) as H1.
  destruct (step i s) as [s1 ev1]. simpl snd in H1.
  specialize (IH s1). destruct (run s1 rest) as [s2 ev2]. simpl snd in *.
  apply masking_balanced_app; assumption.
Qed.

(** ** A frame is dispatched once *)


(** ** Whole frames *)

(** From the first edge on: a decoder that waits for the start marker with an
    empty code byte, a start marker and 32 regular intervals. *)
Lemma run_frame_after_first (s1 : Globals) (d0 : Z) (ds bits : list Z) :
  state s1 = STATE_NEED_START2 -> data s1 = 0 ->
  7 * MS < d0 < 11 * MS ->
  length ds = 32%nat ->
  Forall2 (fun d b => classify d = Some b) ds bits ->
  run_edges s1 (edge_times (lastRead s1) (d0 :: ds)) =
    mkGlobals (lastRead s1 + d0 + sumZ ds) 32
              (msb_first (firstn 8 (skipn 16 bits))) STATE_DATA_READY (lastPress s1).
Proof.
  intros Hst Hd Hd0 Hlen Hc.
  assert (Hblen : length bits = 32%nat) by (rewrite <- (Forall2_length Hc); exact Hlen).
  assert (Hbits : Forall is_bit bits) by exact (classified_bits ds bits Hc).
  set (t1 := lastRead s1 + d0).
  set (s2 := mkGlobals t1 0 (data s1) STATE_DATA (lastPress s1)).
  assert (Hdelta : delta_of t1 s1 = d0).
  { rewrite delta_of_small; unfold t1; unfold MS in Hd0; lia. }
  assert (E2 : readIR t1 s1 = (s2, [])).
  { apply readIR_start_marker.
    - exact Hst.
    - right. unfold t1. unfold MS in Hd0. lia.
    - rewrite Hdelta. exact Hd0. }
  change (run_edges (fst (readIR t1 s1)) (edge_times t1 ds) =
          mkGlobals (t1 + sumZ ds) 32
                    (msb_first (firstn 8 (skipn 16 bits))) STATE_DATA_READY (lastPress s1)).
  rewrite E2. simpl fst.
  change (edge_times t1 ds) with (edge_times (lastRead s2) ds).
  rewrite (run_data_edges ds bits s2 Hc);
    [| reflexivity | simpl; lia | rewrite Hlen; simpl; lia].
  destruct (feed_frame bits s2 Hblen Hbits) as [Hstate Hdata];
    [reflexivity | exact Hd |].
  assert (Hp : pulseNum (feed bits s2) = 32).
  { rewrite feed_pulseNum; rewrite ?Hblen; simpl; lia. }
  pose proof (feed_lastPress bits s2) as Hlp.
  destruct (feed bits s2) as [lr pn dt st lp].
  simpl in Hstate, Hdata, Hp, Hlp. subst pn dt st lp. reflexivity.
Qed.

Lemma handleReceivedData_no_baseline (now : Z) (s : Globals) :
  lastPress s = 0 ->
  keys (snd (handleReceivedData now s)) = option_list (key_of_code (data s)) /\
  lastPress (fst (handleReceivedData now s)) =
    match key_of_code (data s) with Some _ => now | None => 0 end.
Proof.
  intros H. rewrite (handleReceivedData_first now s H). unfold key_of_code.
  destruct (data s =? VOL_UP); [split; reflexivity |].
  destruct (data s =? VOL_DOWN); [split; reflexivity |].
  destruct (data s =? MUTE); split; simpl; auto.
Qed.

(** X6: end to end.  From a decoder waiting for a first edge (no edge
    recorded, empty code byte) and with no key sent before, the 34 edges of
    a frame (start interval strictly between 7 ms and 11 ms, 32 intervals
    each classified as a bit), with no wrap of [micros()] inside the frame
    (readings from [t0 >= 0] to a last one below 2^32), leave the globals with [pulseNum] 32,
    [lastRead] at the last edge and [lastPress] untouched, and the loop
    iteration that follows presses exactly the key the [switch] maps the
    code byte to (none for an unknown code), records the time of the press,
    and leaves the decoder cleared.  Neither the 16 address bits nor the 8
    bits after the code byte have any influence. *)
Theorem X6_frame_to_key (s : Globals) (t0 d0 now : Z) (ds bits : list Z) :
  state s = STATE_NEED_START -> lastRead s = 0 -> data s = 0 -> lastPress s = 0 ->
  0 <= t0 ->
  7 * MS < d0 < 11 * MS ->
  length ds = 32%nat ->
  Forall2 (fun d b => classify d = Some b) ds bits ->
  t0 + d0 + sumZ ds < TS_MODULUS ->
  let code := msb_first (firstn 8 (skipn 16 bits)) in
  let s' := run_edges s (t0 :: edge_times t0 (d0 :: ds)) in
  s' = mkGlobals (t0 + d0 + sumZ ds) 32 code STATE_DATA_READY 0 /\
  keys (snd (loop now s')) = option_list (key_of_code code) /\
  fst (loop now s') =
    mkGlobals 0 0 0 STATE_NEED_START
              (match key_of_code code with Some _ => now | None => 0 end).
Proof.
  intros Hst Hl Hd Hlp Ht0 Hd0 Hlen Hc Hmax code s'.
  set (s1 := set_state STATE_NEED_START2 (set_lastRead t0 s)).
  assert (E1 : readIR t0 s = (s1, [])) by (apply readIR_first_edge; assumption).
  assert (Es' : s' = mkGlobals (t0 + d0 + sumZ ds) 32 code STATE_DATA_READY 0).
  { unfold s'.
    change (run_edges (fst (readIR t0 s)) (edge_times t0 (d0 :: ds)) =
            mkGlobals (t0 + d0 + sumZ ds) 32 code STATE_DATA_READY 0).
    rewrite E1. simpl fst.
    change (edge_times t0 (d0 :: ds)) with (edge_times (lastRead s1) (d0 :: ds)).
    rewrite (run_frame_after_first s1 d0 ds bits); try assumption; try reflexivity.
    unfold s1. simpl. rewrite Hlp. reflexivity. }
  split; [exact Es' |].
  rewrite Es'.
  set (r := mkGlobals (t0 + d0 + sumZ ds) 32 code STATE_DATA_READY 0).
  rewrite (loop_ready now r eq_refl).
  destruct (handleReceivedData_no_baseline now r eq_refl) as [Hk Hp].
  destruct (handleReceivedData_events now r) as [E | [k E]].
  - split.
    + simpl snd. rewrite E in *. simpl in *. exact Hk.
    + simpl fst. unfold cleared. rewrite Hp. reflexivity.
  - split.
    + simpl snd. rewrite E in *. simpl in *. exact Hk.
    + simpl fst. unfold cleared. rewrite Hp. reflexivity.
Qed.

Lemma X6_frame_to_key_witness :
  let bits := frame_bits [1; 1; 0; 1; 0; 0; 0; 0] in
  let ds := map interval_of_bit bits in
  let s' := run_edges boot (500 :: edge_times 500 (9 * MS :: ds)) in
  (7 * MS < 9 * MS < 11 * MS /\ length ds = 32%nat /\
   500 + 9 * MS + sumZ ds < TS_MODULUS) /\
  keys (snd (loop 777 s')) = [MMKEY_VOL_DOWN] /\
  fst (loop 777 s') = mkGlobals 0 0 0 STATE_NEED_START 777.
Proof.
  intros bits ds s'.
  assert (H1 : 7 * MS < 9 * MS < 11 * MS) by (unfold MS; lia).
  assert (H2 : length ds = 32%nat) by reflexivity.
  assert (H4 : Forall2 (fun d b => classify d = Some b) ds bits).
  { unfold ds, bits, frame_bits. simpl. repeat constructor. }
  assert (H0 : 0 <= 500) by lia.
  assert (H3 : 500 + 9 * MS + sumZ ds < TS_MODULUS) by (vm_compute; reflexivity).
  split; [repeat split; try assumption; apply H1 |].
  destruct (X6_frame_to_key boot 500 (9 * MS) 777 ds bits
              eq_refl eq_refl eq_refl eq_refl H0 H1 H2 H4 H3) as (_ & Hk & Hs).
  split; [exact Hk | exact Hs].
Defined.

(** X7: resynchronisation.  Whatever the decoder holds (a half-read frame, a
    ready frame not yet dispatched, a lone first edge), as long as an edge
    is recorded, an edge that comes more than 40 ms and less than 65.536 ms
    after it, without a wrap of [micros()] in between, clears the decoder and
    is itself taken as a first edge; a start marker and 32 regular intervals
    after it are then decoded as a whole frame. *)
Theorem X7_resynchronisation (s : Globals) (g d0 : Z) (ds bits : list Z) :
  lastRead s <> 0 ->
  40 * MS < g < 2 ^ 16 ->
  7 * MS < d0 < 11 * MS ->
  length ds = 32%nat ->
  Forall2 (fun d b => classify d = Some b) ds bits ->
  readIR (lastRead s + g) s =
    (mkGlobals (lastRead s + g) 0 0 STATE_NEED_START2 (lastPress s),
     [EvNoInterrupts; EvInterrupts]) /\
  run_edges s (edge_times (lastRead s) (g :: d0 :: ds)) =
    mkGlobals (lastRead s + g + d0 + sumZ ds) 32
              (msb_first (firstn 8 (skipn 16 bits))) STATE_DATA_READY (lastPress s).
Proof.
  intros Hl Hg Hd0 Hlen Hc.
  change (2 ^ 16) with 65536 in Hg. unfold MS in Hg.
  set (t1 := lastRead s + g).
  set (s1 := mkGlobals t1 0 0 STATE_NEED_START2 (lastPress s)).
  assert (Hdelta : delta_of t1 s = g) by (rewrite delta_of_small; unfold t1; lia).
  assert (E1 : readIR t1 s = (s1, [EvNoInterrupts; EvInterrupts])).
  { apply readIR_timeout.
    - right. unfold t1. lia.
    - exact Hl.
    - rewrite Hdelta. unfold MS. lia. }
  split; [exact E1 |].
  change (run_edges (fst (readIR t1 s)) (edge_times t1 (d0 :: ds)) =
          mkGlobals (t1 + d0 + sumZ ds) 32
                    (msb_first (firstn 8 (skipn 16 bits))) STATE_DATA_READY (lastPress s)).
  rewrite E1. simpl fst.
  change (edge_times t1 (d0 :: ds)) with (edge_times (lastRead s1) (d0 :: ds)).
  rewrite (run_frame_after_first s1 d0 ds bits); try assumption; reflexivity.
Qed.

Lemma X7_resynchronisation_witness :
  let s := mkGlobals 3000 20 88 STATE_DATA 0 in
  let bits := frame_bits [1; 1; 1; 1; 0; 0; 0; 0] in
  let ds := map interval_of_bit bits in
  (lastRead s <> 0 /\ 40 * MS < 50000 < 2 ^ 16 /\ 7 * MS < 9 * MS < 11 * MS) /\
  run_edges s (edge_times 3000 (50000 :: 9 * MS :: ds)) =
    mkGlobals (3000 + 50000 + 9 * MS + sumZ ds) 32 0xF0 STATE_DATA_READY 0.
Proof.
  intros s bits ds.
  assert (H0 : lastRead s <> 0) by discriminate.
  assert (Hg : 40 * MS < 50000 < 2 ^ 16) by (vm_compute; split; reflexivity).
  assert (H1 : 7 * MS < 9 * MS < 11 * MS) by (unfold MS; lia).
  assert (H2 : length ds = 32%nat) by reflexivity.
  assert (H4 : Forall2 (fun d b => classify d = Some b) ds bits).
  { unfold ds, bits, frame_bits. simpl. repeat constructor. }
  split; [repeat split; assumption |].
  exact (proj2 (X7_resynchronisation s 50000 (9 * MS) ds bits H0 Hg H1 H2 H4)).
Defined.

(** X8: a frame cut short.  After the first edge, the start marker and fewer
    than 32 regular intervals, with no wrap of [micros()] in between
    (readings from [t0 >= 0] to a last one below 2^32), the decoder is still in [STATE_DATA] with
    [pulseNum] the number of bits read, and a loop iteration then presses no
    key and changes no global: only a complete frame reaches the
    dispatcher. *)
Theorem X8_truncated_frame (s : Globals) (t0 d0 now : Z) (ds bits : list Z) :
  state s = STATE_NEED_START -> lastRead s = 0 ->
  0 <= t0 ->
  7 * MS < d0 < 11 * MS ->
  (length ds < 32)%nat ->
  Forall2 (fun d b => classify d = Some b) ds bits ->
  t0 + d0 + sumZ ds < TS_MODULUS ->
  let s' := run_edges s (t0 :: edge_times t0 (d0 :: ds)) in
  state s' = STATE_DATA /\
  pulseNum s' = Z.of_nat (length ds) /\
  loop now s' = (s', [EvPoll]).
Proof.
  intros Hst Hl Ht0 Hd0 Hlen Hc Hmax s'.
  set (s1 := set_state STATE_NEED_START2 (set_lastRead t0 s)).
  set (s2 := mkGlobals (t0 + d0) 0 (data s1) STATE_DATA (lastPress s1)).
  assert (E1 : readIR t0 s = (s1, [])) by (apply readIR_first_edge; assumption).
  assert (Hdelta : delta_of (t0 + d0) s1 = d0).
  { rewrite delta_of_small; unfold s1; simpl; unfold MS in Hd0; lia. }
  assert (E2 : readIR (t0 + d0) s1 = (s2, [])).
  { apply readIR_start_marker.
    - reflexivity.
    - right. unfold s1. simpl. unfold MS in Hd0. lia.
    - rewrite Hdelta. exact Hd0. }
  assert (Hblen : length bits = length ds) by (symmetry; exact (Forall2_length Hc)).
  assert (Es' : s' = set_lastRead (t0 + d0 + sumZ ds) (feed bits s2)).
  { unfold s'.
    change (run_edges (fst (readIR (t0 + d0) (fst (readIR t0 s)))) (edge_times (t0 + d0) ds) =
            set_lastRead (t0 + d0 + sumZ ds) (feed bits s2)).
    rewrite E1. simpl fst. rewrite E2. simpl fst.
    change (edge_times (t0 + d0) ds) with (edge_times (lastRead s2) ds).
    rewrite (run_data_edges ds bits s2 Hc); [reflexivity | reflexivity | simpl; lia |].
    simpl pulseNum. lia. }
  assert (Hs : state s' = STATE_DATA).
  { rewrite Es'. simpl state. rewrite feed_state_data; [reflexivity | simpl; lia |].
    simpl pulseNum. rewrite Hblen. lia. }
  split; [exact Hs | split].
  - rewrite Es'. simpl pulseNum. rewrite feed_pulseNum; simpl pulseNum; rewrite ?Hblen; lia.
  - apply loop_not_ready. rewrite Hs. discriminate.
Qed.

Lemma X8_truncated_frame_witness :
  let ds := [1200; 2000; 1200] in
  let s' := run_edges boot (100 :: edge_times 100 (9 * MS :: ds)) in
  (7 * MS < 9 * MS < 11 * MS /\ (length ds < 32)%nat /\
   100 + 9 * MS + sumZ ds < TS_MODULUS) /\
  state s' = STATE_DATA /\ pulseNum s' = 3 /\ loop 5000 s' = (s', [EvPoll]).
Proof.
  intros ds s'.
  assert (H1 : 7 * MS < 9 * MS < 11 * MS) by (unfold MS; lia).
  assert (H2 : (length ds < 32)%nat) by (simpl; lia).
  assert (H4 : Forall2 (fun d b => classify d = Some b) ds [0; 1; 0])
    by (repeat constructor).
  assert (H0 : 0 <= 100) by lia.
  assert (H3 : 100 + 9 * MS + sumZ ds < TS_MODULUS) by (vm_compute; reflexivity).
  split; [repeat split; try assumption; apply H1 |].
  exact (X8_truncated_frame boot 100 (9 * MS) 5000 ds [0; 1; 0]
           eq_refl eq_refl H0 H1 H2 H4 H3).
Defined.

(** ** The 16-bit interval wraps every 65536 us *)

Lemma delta_of_mod (now : Z) (s : Globals) :
  delta_of now s = (now - lastRead s) mod 65536.
Proof.
  unfold delta_of, to_uint16, to_TS, TS_MODULUS.
  change (2 ^ 16) with 65536. change (2 ^ 32) with (65536 * 65536).
  apply Z.mod_mod_divide. exists 65536. reflexivity.
Qed.

Lemma delta_of_period (now k : Z) (s : Globals) :
  delta_of (now + 65536 * k) s = delta_of now s.
Proof.
  rewrite !delta_of_mod.
  replace (now + 65536 * k - lastRead s) with (now - lastRead s + k * 65536) by lia.
  apply Z_mod_plus_full.
Qed.

(** The reading enters the [switch] only as the value stored in [lastRead]. *)
Lemma readIR_switch_reading (now1 now2 delta : Z) (s : Globals) :
  let '(a, eva, fa) := readIR_switch now1 delta s in
  let '(b, evb, fb) := readIR_switch now2 delta s in
  eva = evb /\ fa = fb /\
  pulseNum a = pulseNum b /\ data a = data b /\ state a = state b /\
  lastPress a = lastPress b /\
  (fa = Break -> lastRead a = lastRead b).
Proof.
  unfold readIR_switch.
  destruct (state s =? STATE_NEED_START).
  { destruct (lastRead s =? 0); simpl; repeat split; auto; discriminate. }
  destruct (state s =? STATE_NEED_START2).
  { destruct ((delta >? 7 * MS) && (delta <? 11 * MS)); simpl; repeat split; auto. }
  destruct (state s =? STATE_DATA); [| simpl; repeat split; auto].
  destruct (classify delta); simpl; repeat split; auto.
Qed.

(** X9: the handler sees the time since the last edge only modulo 65536 us.
    For an edge that passes the wrap-around test, reading the clock any
    whole number of 65536 us periods later gives the same calls and the same
    [pulseNum], [data], [state] and [lastPress]: an edge 75 ms after the
    last one is handled exactly like one 9.464 ms after it. *)
Theorem X9_interval_modulo_65536 (now k : Z) (s : Globals) :
  no_wrap now s -> 0 <= k ->
  let r1 := readIR now s in
  let r2 := readIR (now + 65536 * k) s in
  delta_of (now + 65536 * k) s = delta_of now s /\
  snd r2 = snd r1 /\
  pulseNum (fst r2) = pulseNum (fst r1) /\
  data (fst r2) = data (fst r1) /\
  state (fst r2) = state (fst r1) /\
  lastPress (fst r2) = lastPress (fst r1).
Proof.
  intros Hw Hk r1 r2.
  assert (Hw2 : no_wrap (now + 65536 * k) s).
  { destruct Hw as [H | H]; [left; exact H | right; lia]. }
  pose proof (delta_of_period now k s) as Hper.
  split; [exact Hper |].
  unfold r1, r2, readIR.
  rewrite (wrap_guard_false Hw), (wrap_guard_false Hw2).
  fold (delta_of now s). fold (delta_of (now + 65536 * k) s). rewrite Hper.
  destruct (negb (lastRead s =? 0) && (delta_of now s >? 40 * MS)).
  - simpl. repeat split.
  - pose proof (readIR_switch_reading (now + 65536 * k) now (delta_of now s) s) as H.
    destruct (readIR_switch (now + 65536 * k) (delta_of now s) s) as [[a eva] fa].
    destruct (readIR_switch now (delta_of now s) s) as [[b evb] fb].
    destruct H as (Hev & Hf & Hp & Hd & Hs & Hl & _). subst fb evb.
    destruct fa; simpl; repeat split; assumption.
Qed.

Lemma X9_interval_modulo_65536_witness :
  let s := mkGlobals 1000 0 0 STATE_NEED_START2 0 in
  (no_wrap 10000 s /\ 0 <= 1) /\
  delta_of 75536 s = 9000 /\
  state (fst (readIR 75536 s)) = state (fst (readIR 10000 s)).
Proof.
  intros s.
  assert (Hw : no_wrap 10000 s) by (right; simpl; lia).
  assert (Hk : 0 <= 1) by lia.
  split; [split; assumption |].
  destruct (X9_interval_modulo_65536 10000 1 s Hw Hk) as (Hd & _ & _ & _ & Hs & _).
  split; [exact Hd | exact Hs].
Defined.

(** ** The debounce test *)

Lemma keys_nonempty_key_of_code (code : Z) :
  option_list (key_of_code code) <> [] <-> key_of_code code <> None.
Proof.
  destruct (key_of_code code); simpl; split; intros H; try discriminate; auto.
Qed.

(** X10: with a key sent before ([lastPress] not 0) and the clock at or
    after it, less than 2^32 ms later, [DEFAULT_handleReceivedData] presses
    a key exactly when at least [PRESS_DELAY] = 200 ms have passed and the
    code byte is one of the three known codes; a gap of exactly 200 ms
    passes.  When a key is pressed [lastPress] becomes the current time,
    otherwise it keeps its value. *)
Theorem X10_debounce_threshold (now : Z) (s : Globals) :
  lastPress s <> 0 -> lastPress s <= now -> now - lastPress s < TS_MODULUS ->
  (keys (snd (handleReceivedData now s)) <> [] <->
   PRESS_DELAY <= now - lastPress s /\ key_of_code (data s) <> None) /\
  (PRESS_DELAY <= now - lastPress s ->
   keys (snd (handleReceivedData now s)) = option_list (key_of_code (data s))) /\
  lastPress (fst (handleReceivedData now s)) =
    match keys (snd (handleReceivedData now s)) with
    | [] => lastPress s
    | _ :: _ => now
    end.
Proof.
  intros H0 Hle Hlt.
  assert (Hts : to_TS (now - lastPress s) = now - lastPress s).
  { unfold to_TS. apply Z.mod_small. lia. }
  assert (Hwrap : (lastPress s >? now) = false)
    by (rewrite Z.gtb_ltb; apply Z.ltb_ge; exact Hle).
  apply Z.eqb_neq in H0.
  unfold handleReceivedData. rewrite H0, Hwrap, Hts. simpl negb. simpl andb.
  destruct (now - lastPress s <? PRESS_DELAY) eqn:Egap.
  - apply Z.ltb_lt in Egap. simpl.
    split; [split; [intros H; contradiction | intros [H _]; lia] |].
    split; [intros H; lia | reflexivity].
  - apply Z.ltb_ge in Egap. unfold key_of_code.
    destruct (data s =? VOL_UP);
      [simpl; repeat split; auto; try discriminate; intros _; discriminate |].
    destruct (data s =? VOL_DOWN);
      [simpl; repeat split; auto; try discriminate; intros _; discriminate |].
    destruct (data s =? MUTE);
      [simpl; repeat split; auto; try discriminate; intros _; discriminate |].
    simpl. split; [split; [intros H; contradiction | intros [_ H]; contradiction] |].
    split; [intros _; reflexivity | reflexivity].
Qed.

Lemma X10_debounce_threshold_witness :
  let s := mkGlobals 0 32 224 STATE_DATA_READY 1000 in
  (lastPress s <> 0 /\ lastPress s <= 1200 /\ 1200 - lastPress s < TS_MODULUS) /\
  keys (snd (handleReceivedData 1200 s)) = [MMKEY_VOL_UP].
Proof.
  intros s.
  assert (H0 : lastPress s <> 0) by discriminate.
  assert (H1 : lastPress s <= 1200) by (simpl; lia).
  assert (H2 : 1200 - lastPress s < TS_MODULUS) by (vm_compute; reflexivity).
  split; [repeat split; assumption |].
  destruct (X10_debounce_threshold 1200 s H0 H1 H2) as (_ & Hk & _).
  apply Hk. vm_compute. discriminate.
Defined.

(** X11: when [millis()] reads less than a non-zero [lastPress] (the clock
    wrapped), [DEFAULT_handleReceivedData] presses no key, whatever the code
    byte, and sets [lastPress] to 0; the next time it runs on that code
    byte, whatever the clock reads, it presses the key of the code byte
    without any waiting time. *)
Theorem X11_clock_wrap_drops_one_command (now next : Z) (s : Globals) :
  lastPress s <> 0 -> lastPress s > now ->
  handleReceivedData now s = (set_lastPress 0 s, []) /\
  keys (snd (handleReceivedData next (fst (handleReceivedData now s)))) =
    option_list (key_of_code (data s)).
Proof.
  intros H0 Hgt.
  assert (E : handleReceivedData now s = (set_lastPress 0 s, [])).
  { unfold handleReceivedData.
    replace (lastPress s >? now) with true
      by (symmetry; rewrite Z.gtb_ltb; apply Z.ltb_lt; lia).
    apply Z.eqb_neq in H0. rewrite H0. reflexivity. }
  split; [exact E |].
  rewrite E. simpl fst.
  exact (proj1 (handleReceivedData_no_baseline next (set_lastPress 0 s) eq_refl)).
Qed.

Lemma X11_clock_wrap_witness :
  let s := mkGlobals 0 32 240 STATE_DATA_READY 4294967000 in
  (lastPress s <> 0 /\ lastPress s > 40) /\
  handleReceivedData 40 s = (set_lastPress 0 s, []) /\
  keys (snd (handleReceivedData 41 (fst (handleReceivedData 40 s)))) = [MMKEY_MUTE].
Proof.
  intros s.
  assert (H0 : lastPress s <> 0) by discriminate.
  assert (H1 : lastPress s > 40) by (simpl; lia).
  split; [split; assumption |].
  exact (X11_clock_wrap_drops_one_command 40 41 s H0 H1).
Defined.
